(** * Requirement / test validation core: a shallow embedding

    Embeds [core/validate.py], [core/extract.py], [core/llm_providers.py]
    and the filter stage of [app/main.py].

    Conventions of the model.
    - A Python [str] is a byte string in UTF-8 ([list ascii] inside the
      matcher, [string] at the interface).  Letters, digits, white space and
      case folding are the ASCII ones; the symbols of the patterns that lie
      outside ASCII (the comparison signs and the degree sign) are matched
      as their UTF-8 byte sequences.
    - A Python [float] is a rational number [Q]; a missing dictionary key,
      [None] and a missing cell of a data frame are [None].
    - Code that raises returns [Raise]; a [try/except] is a [match]. *)

From Stdlib Require Import String Ascii List Bool Arith ZArith QArith Qabs Lia.
Import ListNotations.
Local Close Scope Q_scope.
Local Open Scope string_scope.
Local Open Scope list_scope.
Local Open Scope nat_scope.

Set Implicit Arguments.

(** ** Characters and strings *)

Module Str.

Definition chars (s : string) : list ascii := list_ascii_of_string s.
Definition of_chars (l : list ascii) : string := string_of_list_ascii l.

Definition code (c : ascii) : nat := nat_of_ascii c.

Definition is_digit (c : ascii) : bool :=
  (48 <=? code c) && (code c <=? 57).

Definition is_upper (c : ascii) : bool :=
  (65 <=? code c) && (code c <=? 90).

Definition is_lower (c : ascii) : bool :=
  (97 <=? code c) && (code c <=? 122).

(** [\w]: letters, digits and the underscore. *)
Definition is_word (c : ascii) : bool :=
  is_digit c || is_upper c || is_lower c || (code c =? 95).

(** [\s] and [str.strip]: blank, the controls 9 to 13 and 28 to 31. *)
Definition is_space (c : ascii) : bool :=
  (code c =? 32) || ((9 <=? code c) && (code c <=? 13))
  || ((28 <=? code c) && (code c <=? 31)).

Definition lower_char (c : ascii) : ascii :=
  if is_upper c then ascii_of_nat (code c + 32) else c.

(** [str.lower] *)
Definition lower (l : list ascii) : list ascii := map lower_char l.

Definition eqc (a b : ascii) : bool := Ascii.eqb a b.

(** [l.startswith(p)] *)
Fixpoint starts_with (p l : list ascii) : bool :=
  match p, l with
  | [], _ => true
  | a :: p', b :: l' => eqc a b && starts_with p' l'
  | _ :: _, [] => false
  end.

(** [p in l] *)
Fixpoint contains (p l : list ascii) : bool :=
  starts_with p l ||
  match l with
  | [] => false
  | _ :: l' => contains p l'
  end.

(** [l.replace(old, "")] for a non-empty [old]: occurrences are removed from
    left to right without overlap; [skip] counts the characters of the
    occurrence under removal that are still to be dropped. *)
Fixpoint remove_from (old : list ascii) (skip : nat) (l : list ascii)
  : list ascii :=
  match l with
  | [] => []
  | c :: l' =>
      match skip with
      | S n => remove_from old n l'
      | O => if starts_with old l
             then remove_from old (length old - 1) l'
             else c :: remove_from old 0 l'
      end
  end.

Definition remove_all (old l : list ascii) : list ascii :=
  match old with
  | [] => l
  | _ :: _ => remove_from old 0 l
  end.

Definition drop_spaces : list ascii -> list ascii :=
  fix go l := match l with
              | c :: l' => if is_space c then go l' else l
              | [] => []
              end.

(** [l.strip()] *)
Definition strip (l : list ascii) : list ascii :=
  rev (drop_spaces (rev (drop_spaces l))).

(** [l[i:j]] for [i <= j] *)
Definition slice (i j : nat) (l : list ascii) : list ascii :=
  firstn (j - i) (skipn i l).

End Str.

(** ** Regular expressions: the fragment of Python's [re] the program uses

    A backtracking matcher in continuation-passing style, with Python's
    priorities: alternatives are tried from left to right, repetitions and
    options are greedy, and [search] returns the match that starts leftmost.
    Repetition is needed on character classes only. *)

Module Re.

Inductive cclass : Type :=
| Digit   (* \d *)
| Space   (* \s *)
| AnyChar (* .  under DOTALL *).

Definition in_class (k : cclass) (c : ascii) : bool :=
  match k with
  | Digit => Str.is_digit c
  | Space => Str.is_space c
  | AnyChar => true
  end.

Inductive regex : Type :=
| Eps  : regex
| Chr  : ascii -> regex
| Cls  : cclass -> regex
| Star : cclass -> regex
| Cat  : regex -> regex -> regex
| Alt  : regex -> regex -> regex
| Opt  : regex -> regex
| Bol  : regex                    (* ^  *)
| Wb   : regex                    (* \b *)
| Grp  : nat -> regex -> regex.   (* ( ... ), numbered *)

(** The literal text [s]. *)
Fixpoint lit_chars (l : list ascii) : regex :=
  match l with
  | [] => Eps
  | c :: l' => Cat (Chr c) (lit_chars l')
  end.

Definition Lit (s : string) : regex := lit_chars (Str.chars s).

(** [c+] *)
Definition Plus (k : cclass) : regex := Cat (Cls k) (Star k).

(** A position of the subject: the index, the character before it, the text
    from it on, and the groups closed so far (latest first). *)
Record mstate : Type := MState {
  pos  : nat;
  prev : option ascii;
  rest : list ascii;
  caps : list (nat * (nat * nat))
}.

Definition step (c : ascii) (l : list ascii) (st : mstate) : mstate :=
  MState (S (pos st)) (Some c) l (caps st).

Definition word_before (st : mstate) : bool :=
  match prev st with Some c => Str.is_word c | None => false end.

Definition word_after (st : mstate) : bool :=
  match rest st with c :: _ => Str.is_word c | [] => false end.

Definition at_boundary (st : mstate) : bool :=
  xorb (word_before st) (word_after st).

(** Under IGNORECASE a literal matches up to the case of ASCII letters. *)
Definition chr_eq (ci : bool) (a b : ascii) : bool :=
  if ci then Str.eqc (Str.lower_char a) (Str.lower_char b) else Str.eqc a b.

Section Matcher.
Variable A : Type.
Variable ci : bool.

(** Greedy repetition of a class: the longest run first, then shorter. *)
Fixpoint star (p : ascii -> bool) (k : mstate -> option A)
         (i : nat) (pv : option ascii) (cs : list (nat * (nat * nat)))
         (l : list ascii) : option A :=
  match l with
  | c :: l' =>
      if p c then
        match star p k (S i) (Some c) cs l' with
        | Some r => Some r
        | None => k (MState i pv l cs)
        end
      else k (MState i pv l cs)
  | [] => k (MState i pv l cs)
  end.

Fixpoint run (r : regex) {struct r}
  : (mstate -> option A) -> mstate -> option A :=
  match r with
  | Eps => fun k st => k st
  | Chr c => fun k st =>
      match rest st with
      | x :: l => if chr_eq ci c x then k (step x l st) else None
      | [] => None
      end
  | Cls cl => fun k st =>
      match rest st with
      | x :: l => if in_class cl x then k (step x l st) else None
      | [] => None
      end
  | Star cl => fun k st =>
      star (in_class cl) k (pos st) (prev st) (caps st) (rest st)
  | Cat a b => fun k st => run a (fun st' => run b k st') st
  | Alt a b => fun k st =>
      match run a k st with
      | Some x => Some x
      | None => run b k st
      end
  | Opt a => fun k st =>
      match run a k st with
      | Some x => Some x
      | None => k st
      end
  | Bol => fun k st =>
    match prev st with
    | None => k st
    | Some _ => None
    end
  | Wb => fun k st => if at_boundary st then k st else None
  | Grp n a => fun k st =>
      run a (fun st' =>
               k (MState (pos st') (prev st') (rest st')
                         ((n, (pos st, pos st')) :: caps st'))) st
  end.
End Matcher.

(** A match object: where group 0 starts and ends, and the other groups. *)
Record mobj : Type := MObj {
  m_start : nat;
  m_end : nat;
  m_caps : list (nat * (nat * nat))
}.

Definition match_at (ci : bool) (r : regex) (i : nat) (pv : option ascii)
           (l : list ascii) : option mobj :=
  run ci r (fun st => Some (MObj i (pos st) (caps st))) (MState i pv l []).

Fixpoint search_from (ci : bool) (r : regex) (i : nat) (pv : option ascii)
         (l : list ascii) : option mobj :=
  match match_at ci r i pv l with
  | Some m => Some m
  | None =>
      match l with
      | [] => None
      | c :: l' => search_from ci r (S i) (Some c) l'
      end
  end.

(** [re.search(r, text)], with [ci] for the flag [re.I]. *)
Definition search (ci : bool) (r : regex) (text : list ascii) : option mobj :=
  search_from ci r 0 None text.

(** [bool(re.search(r, text))] *)
Definition found (ci : bool) (r : regex) (text : list ascii) : bool :=
  match search ci r text with Some _ => true | None => false end.

Fixpoint lookup_cap (n : nat) (cs : list (nat * (nat * nat)))
  : option (nat * nat) :=
  match cs with
  | [] => None
  | (m, se) :: cs' => if n =? m then Some se else lookup_cap n cs'
  end.

(** [m.group(n)]; group 0 is the whole match.  A group that took no part in
    the match gives the empty text (the program never reads one). *)
Definition group (text : list ascii) (m : mobj) (n : nat) : list ascii :=
  match n with
  | O => Str.slice (m_start m) (m_end m) text
  | _ => match lookup_cap n (m_caps m) with
         | Some (s, e) => Str.slice s e text
         | None => []
         end
  end.

End Re.

(** ** Numbers *)

Module Num.

Definition digit_val (c : ascii) : Z := Z.of_nat (Str.code c - 48).

Fixpoint digits_val (acc : Z) (l : list ascii) : Z :=
  match l with
  | [] => acc
  | c :: l' => digits_val (10 * acc + digit_val c)%Z l'
  end.

Fixpoint split_dot (l : list ascii) : list ascii * option (list ascii) :=
  match l with
  | [] => ([], None)
  | c :: l' =>
      if Str.eqc c "."%char then ([], Some l')
      else let (a, b) := split_dot l' in (c :: a, b)
  end.

(** [float(s)] for a text [s] of the shape [\d+(\.\d+)?], which is the only
    shape the program converts: the exact decimal value, in lowest terms. *)
Definition float_of_decimal (l : list ascii) : Q :=
  match split_dot l with
  | (ip, None) => Qred (inject_Z (digits_val 0 ip))
  | (ip, Some fp) =>
      Qred (Qmake (digits_val (digits_val 0 ip) fp)
                  (Pos.pow 10 (Pos.of_nat (length fp))))
  end.

(** Truth value of a float: zero is false. *)
Definition truthy (q : Q) : bool := negb (Qeq_bool q 0).

End Num.

(** ** core/extract.py: the output schemas and the pattern fallback *)

Module Extract.

Import Re.

Record ReqJSON : Type := mkReq {
  metric : option string;
  comparator : option string;
  value : option Q;
  unit : option string;
  component : option string;
  condition : option string
}.

Record ChatFilter : Type := mkFilter {
  f_component : option string;
  f_metric : option string;
  f_status : option string;
  f_min_value : option Q;
  f_unit : option string
}.

(** METRIC_ALIASES, in insertion order. *)
Definition METRIC_ALIASES : list (string * string) :=
  [ ("shear", "shear_strength");
    ("shear_strength", "shear_strength");
    ("gap", "gap");
    ("rigidity", "rigidity") ].

(** [\bw\b] *)
Definition whole_word (w : string) : regex := Cat Wb (Cat (Lit w) Wb).

Fixpoint first_hit (A : Type) (test : string -> bool)
         (table : list (string * A)) : option A :=
  match table with
  | [] => None
  | (k, v) :: t => if test k then Some v else first_hit test t
  end.

Definition _alias_metric (txt : list ascii) : option string :=
  first_hit (fun k => found true (whole_word k) txt) METRIC_ALIASES.

(** [\d+(?:\.\d+)?] *)
Definition number : regex :=
  Cat (Plus Digit) (Opt (Cat (Chr ".") (Plus Digit))).

(** [(\d+(?:\.\d+)?)\s*(kN|N|mm)\b] *)
Definition re_value_unit : regex :=
  Cat (Grp 1 number)
      (Cat (Star Space)
           (Cat (Grp 2 (Alt (Lit "kN") (Alt (Lit "N") (Lit "mm")))) Wb)).

(** [at\s+least], [not\s+exceed] *)
Definition two_words (a b : string) : regex :=
  Cat (Lit a) (Cat (Plus Space) (Lit b)).

(** [≥|>=|at\s+least|minimum|min] *)
Definition re_ge : regex :=
  Alt (Lit "≥") (Alt (Lit ">=") (Alt (two_words "at" "least")
      (Alt (Lit "minimum") (Lit "min")))).

(** [≤|<=|not\s+exceed|maximum|max] *)
Definition re_le : regex :=
  Alt (Lit "≤") (Alt (Lit "<=") (Alt (two_words "not" "exceed")
      (Alt (Lit "maximum") (Lit "max")))).

(** [\bequals?\b|^=\b] *)
Definition re_eq : regex :=
  Alt (Cat Wb (Cat (Lit "equal") (Cat (Opt (Chr "s")) Wb)))
      (Cat Bol (Cat (Chr "=") Wb)).

(** [\bmore than\b|>] *)
Definition re_gt : regex := Alt (whole_word "more than") (Chr ">").

(** [\bless than\b|<] *)
Definition re_lt : regex := Alt (whole_word "less than") (Chr "<").

(** The [if]/[elif] chain that sets [comp]. *)
Definition comparator_of (text : list ascii) : option string :=
  if found true re_ge text then Some "≥"
  else if found true re_le text then Some "≤"
  else if found true re_eq text then Some "="
  else if found true re_gt text then Some ">"
  else if found true re_lt text then Some "<"
  else None.

Definition REQ_COMPONENTS : list string :=
  ["door_frame"; "panel"; "b_pillar"; "roof"; "hood"; "door"].

(** The [for c in ...: if ...: compo = c; break] loops. *)
Fixpoint first_such (test : string -> bool) (l : list string)
  : option string :=
  match l with
  | [] => None
  | c :: t => if test c then Some c else first_such test t
  end.

(** [-?\d+\s*°\s*C] *)
Definition re_temperature : regex :=
  Cat (Opt (Chr "-"))
      (Cat (Plus Digit)
           (Cat (Star Space) (Cat (Lit "°") (Cat (Star Space) (Chr "C"))))).

(** [ambient|room temperature] *)
Definition re_ambient : regex :=
  Alt (Lit "ambient") (Lit "room temperature").

(** The two consecutive [if] statements that set [cond]. *)
Definition condition_of (text : list ascii) : option string :=
  let cond :=
    if found false re_temperature text then
      match search false (Grp 1 re_temperature) text with
      | Some m => Some (Str.of_chars (group text m 1))
      | None => None
      end
    else None in
  if found true re_ambient text then Some "ambient" else cond.

Definition _regex_req (text : string) : ReqJSON :=
  let t := Str.chars text in
  let m := search true re_value_unit t in
  let (val, un) :=
    match m with
    | Some m => (Some (Num.float_of_decimal (group t m 1)),
                 Some (Str.of_chars (group t m 2)))
    | None => (None, None)
    end in
  let comp := comparator_of t in
  let metric := _alias_metric t in
  let compo :=
    first_such (fun c => found true (whole_word c) t) REQ_COMPONENTS in
  let cond := condition_of t in
  mkReq metric comp val un compo cond.

End Extract.

(** ** The fallback query parser, [_regex_filters] *)

Module Filters.

Import Re Extract.

Definition FILTER_COMPONENTS : list string :=
  ["door_frame"; "panel"; "b_pillar"; "roof"; "hood"; "door"; "bumper";
   "trunk"; "fender"; "windshield"; "quarter_panel"; "spoiler"; "mirror";
   "grille"; "tailgate"; "headlight"; "antenna"; "wheel_well"; "fuel_door";
   "license_plate"; "exhaust"; "side_skirt"; "sunroof"; "dashboard";
   "console"; "seat"; "airbag"; "steering"; "pedal"; "armrest"; "cupholder";
   "visor"; "handle"; "vent"; "trim"].

(** [w in l] for a literal [w] *)
Definition has (w : string) (l : list ascii) : bool :=
  Str.contains (Str.chars w) l.

Definition strip_word (w : string) (l : list ascii) : list ascii :=
  Str.remove_all (Str.chars w) l.

(** The status chain: the status and the query with the status word
    removed. *)
Definition status_of (ql : list ascii) : option string * list ascii :=
  if has "failed" ql then (Some "fail", strip_word "failed" ql)
  else if has "fail" ql then (Some "fail", strip_word "fail" ql)
  else if has "passed" ql then (Some "pass", strip_word "passed" ql)
  else if has "pass" ql then (Some "pass", strip_word "pass" ql)
  else (None, ql).

Definition component_of (status_processed_query : list ascii)
  : option string :=
  first_such (fun c => has c status_processed_query) FILTER_COMPONENTS.

Definition metric_of (ql : list ascii) : option string :=
  first_hit (fun m => has m ql) METRIC_ALIASES.

Fixpoint alts (l : list string) : regex :=
  match l with
  | [] => Eps
  | [a] => Lit a
  | a :: t => Alt (Lit a) (alts t)
  end.

(** [(kn|n|mm)] as the group of number [n] *)
Definition unit_grp (n : nat) : regex := Grp n (alts ["kn"; "n"; "mm"]).

(** [(?:unit|units?)] *)
Definition unit_word : regex :=
  Alt (Lit "unit") (Cat (Lit "unit") (Opt (Chr "s"))).

Definition cats (l : list regex) : regex :=
  fold_right Cat Eps l.

Definition unit_patterns : list regex :=
  [ (* (?:unit|units?)\s+(?:having|with|of|in|is|are)\s*(kn|n|mm) *)
    cats [unit_word; Plus Space;
          alts ["having"; "with"; "of"; "in"; "is"; "are"];
          Star Space; unit_grp 1];
    (* (?:having|with)\s+unit\s+(kn|n|mm) *)
    cats [alts ["having"; "with"]; Plus Space; Lit "unit"; Plus Space;
          unit_grp 1];
    (* (?:in|with)\s+(kn|n|mm)\s+(?:unit|units?) *)
    cats [alts ["in"; "with"]; Plus Space; unit_grp 1; Plus Space;
          unit_word];
    (* \b(kn|n|mm)\s+(?:unit|units?) *)
    cats [Wb; unit_grp 1; Plus Space; unit_word];
    (* (?:unit|units?)\s+(?:=|equals?|is)\s*(kn|n|mm) *)
    cats [unit_word; Plus Space;
          Alt (Lit "=") (Alt (Cat (Lit "equal") (Opt (Chr "s"))) (Lit "is"));
          Star Space; unit_grp 1];
    (* unit\s+having\s+(kn|n|mm) *)
    cats [Lit "unit"; Plus Space; Lit "having"; Plus Space; unit_grp 1];
    (* with\s+(?:unit\s+)?having\s+(kn|n|mm) *)
    cats [Lit "with"; Plus Space; Opt (Cat (Lit "unit") (Plus Space));
          Lit "having"; Plus Space; unit_grp 1] ].

(** [for pattern in patterns: m = re.search(...); if m: ...; break] *)
Fixpoint first_match (ci : bool) (ps : list regex) (text : list ascii)
  : option mobj :=
  match ps with
  | [] => None
  | p :: t =>
      match search ci p text with
      | Some m => Some m
      | None => first_match ci t text
      end
  end.

(** The [if unit == "kn" ... elif ... elif ...] normalisation of a captured
    unit. *)
Definition canonical_unit (u : list ascii) : option string :=
  let u := Str.of_chars (Str.lower u) in
  if String.eqb u "kn" then Some "kN"
  else if String.eqb u "n" then Some "N"
  else if String.eqb u "mm" then Some "mm"
  else None.

(** [(\d+(?:\.\d+)?)\s*(kn|n|mm)] *)
Definition re_number_unit : regex :=
  cats [Grp 1 number; Star Space; unit_grp 2].

Definition threshold_patterns : list regex :=
  [ (* (?:greater than|more than|above|>|≥)\s*(\d+(?:\.\d+)?) *)
    cats [alts ["greater than"; "more than"; "above"; ">"; "≥"];
          Star Space; Grp 1 number];
    (* (\d+(?:\.\d+)?)\s*(?:or more|or greater|plus) *)
    cats [Grp 1 number; Star Space; alts ["or more"; "or greater"; "plus"]];
    (* measured_norm\s*[>≥]\s*(\d+(?:\.\d+)?) *)
    cats [Lit "measured_norm"; Star Space; Alt (Chr ">") (Lit "≥");
          Star Space; Grp 1 number] ].

(** The unit guessed for a threshold given without one. *)
Definition infer_unit (ql : list ascii) : option string :=
  if has "kn" ql || has "kilo" ql then Some "kN"
  else if has "n" ql && negb (has "mm" ql) then Some "N"
  else if has "mm" ql then Some "mm"
  else None.

(** [not d.get("unit")] *)
Definition falsy_str (o : option string) : bool :=
  match o with
  | None => true
  | Some s => String.eqb s ""
  end.

(** The part of [_regex_filters] that fills [unit] and [min_value]. *)
Definition unit_and_threshold (ql : list ascii) : option Q * option string :=
  let unit1 :=
    match first_match true unit_patterns ql with
    | Some m => canonical_unit (group ql m 1)
    | None => None
    end in
  if falsy_str unit1 then
    match search true re_number_unit ql with
    | Some m =>
        (Some (Num.float_of_decimal (group ql m 1)),
         canonical_unit (group ql m 2))
    | None =>
        match first_match false threshold_patterns ql with
        | Some m =>
            (Some (Num.float_of_decimal (group ql m 1)), infer_unit ql)
        | None => (None, unit1)
        end
    end
  else (None, unit1).

Definition _regex_filters (q : string) : ChatFilter :=
  let ql := Str.lower (Str.chars q) in
  let (status, status_processed_query) := status_of ql in
  let component := component_of status_processed_query in
  let metric := metric_of ql in
  let (min_value, un) := unit_and_threshold ql in
  mkFilter component metric status min_value un.

End Filters.

(** ** Results of code that can raise *)

Inductive outcome (A : Type) : Type :=
| Ok : A -> outcome A
| Raise : string -> outcome A.

Arguments Ok {A} _.
Arguments Raise {A} _.

Definition bind {A B : Type} (x : outcome A) (f : A -> outcome B)
  : outcome B :=
  match x with
  | Ok a => f a
  | Raise e => Raise e
  end.

Notation "x <- c1 ;; c2" := (bind c1 (fun x => c2))
  (at level 61, c1 at next level, right associativity).

(** ** core/llm_providers.py *)

Module Providers.

Record message : Type := Msg { role : string; content : string }.

(** What lies outside the program: the environment variable and the remote
    service, which answers a list of messages and a temperature with a text
    (possibly none) or raises. *)
Record world : Type := World {
  GROQ_API_KEY : option string;
  groq_create : list message -> Q -> outcome (option string)
}.

Definition truthy_str (o : option string) : bool :=
  match o with
  | None => false
  | Some s => negb (String.eqb s "")
  end.

Section Provider.
Variable w : world.

(** [GroqProvider.check_availability], evaluated once in [__init__]. *)
Definition available : bool := truthy_str (GROQ_API_KEY w).

Definition chat_completion (messages : list message) (temperature : Q)
  : outcome (option string) :=
  if negb available then Raise "Groq API key not available"
  else
    match groq_create w messages temperature with
    | Ok c => Ok c
    | Raise e => Raise ("Groq API error: " ++ e)
    end.

Definition have_llm : bool := available.

Definition llm_chat (messages : list message) (temperature : Q)
  : outcome (option string) :=
  if negb have_llm then Raise "Groq provider not available"
  else chat_completion messages temperature.
End Provider.

End Providers.

(** ** The three consumers of the reasoning backend *)

Module Assisted.

Import Re Extract Filters Providers.
Local Open Scope string_scope.

(** A decoded JSON document. *)
#[local] Unset Elimination Schemes.
Inductive json : Type :=
| JNull : json
| JBool : bool -> json
| JNum : Q -> json
| JNaN : json
| JStr : string -> json
| JArr : list json -> json
| JObj : list (string * json) -> json.
#[local] Set Elimination Schemes.

(** What the libraries do: [json.loads], [json.dumps] of the facts, the
    constructors of the two pydantic models applied to keyword arguments
    (followed by [model_dump]), and the formatting of floats. *)
Record libs : Type := Libs {
  json_loads : list ascii -> outcome json;
  json_dumps : list (string * json) -> outcome string;
  pydantic_ReqJSON : list (string * json) -> outcome ReqJSON;
  pydantic_ChatFilter : list (string * json) -> outcome ChatFilter;
  format_3g : Q -> string;
  str_float : Q -> string
}.

(** A text cell of a row of a data frame: the column does not exist
    ([r.get] gives [None]), the cell is empty (the float nan, which counts as
    true), or it holds a text. *)
Inductive cell : Type :=
| Absent : cell
| NaN : cell
| Text : string -> cell.

Definition is_null (j : json) : bool :=
  match j with JNull => true | _ => false end.

(** [\{.*\}] under DOTALL *)
Definition re_json : regex := Cat (Chr "{") (Cat (Star AnyChar) (Chr "}")).

Definition REQ_SYS_PROMPT : string :=
  "You extract structured requirement facts as JSON.
Return ONLY a JSON object with keys:
metric (snake_case), comparator (one of ≥, ≤, =, <, >), value (number), unit (kN/N/mm),
component (snake_case if present), condition (string or null).
If ambiguous, use nulls. Do not add extra keys.".

Definition REQ_USER_TMPL (text : string) : string :=
  "Text:
---
" ++ text ++ "
---".

Section Consumers.
Variable w : world.
Variable L : libs.

(** The text between the first opening and the last closing brace when
    there is one, else the whole answer, handed to [json.loads]; an
    answer without text makes [re.search] raise. *)
Definition load_answer (answer : option string) : outcome json :=
  match answer with
  | None => Raise "TypeError"
  | Some c =>
      let t := Str.chars c in
      match search false re_json t with
      | Some m => json_loads L (group t m 0)
      | None => json_loads L t
      end
  end.

(** [data.items()] and [**data] need a dictionary. *)
Definition items (j : json) : outcome (list (string * json)) :=
  match j with
  | JObj kv => Ok kv
  | _ => Raise "not a dict"
  end.

(** The body of the [try] block of [extract_requirement_text_to_json]. *)
Definition llm_extract (text : string) : outcome ReqJSON :=
  answer <- llm_chat w [Msg "system" REQ_SYS_PROMPT;
                        Msg "user" (REQ_USER_TMPL text)] 0%Q ;;
  data <- load_answer answer ;;
  kv <- items data ;;
  pydantic_ReqJSON L (filter (fun p => negb (is_null (snd p))) kv).

Definition extract_requirement_text_to_json (text : string)
  : outcome ReqJSON :=
  let t := Str.of_chars (Str.strip (Str.chars text)) in
  if String.eqb t "" then pydantic_ReqJSON L []
  else if have_llm w then
    match llm_extract t with
    | Ok r => Ok r
    | Raise _ => Ok (_regex_req t)
    end
  else Ok (_regex_req t).

(** *** Explanations *)

Record Facts : Type := mkFacts {
  run_id : option string;
  fc_component : cell;
  fc_metric : option string;
  fc_status : option string;
  fc_measured_norm : option Q;
  fc_target : option Q;
  fc_unit : option string
}.

Definition jcell (c : cell) : json :=
  match c with
  | Absent => JNull
  | NaN => JNaN
  | Text s => JStr s
  end.

Definition jstr (o : option string) : json :=
  match o with Some s => JStr s | None => JNull end.

Definition jnum (o : option Q) : json :=
  match o with Some q => JNum q | None => JNull end.

Definition facts_items (f : Facts) : list (string * json) :=
  [ ("run_id", jstr (run_id f));
    ("component", jcell (fc_component f));
    ("metric", jstr (fc_metric f));
    ("status", jstr (fc_status f));
    ("measured_norm", jnum (fc_measured_norm f));
    ("target", jnum (fc_target f));
    ("unit", jstr (fc_unit f)) ].

(** [f"{x}"] for a text or a float that may be [None]. *)
Definition show_str (o : option string) : string :=
  match o with Some s => s | None => "None" end.

Definition show_float (o : option Q) : string :=
  match o with Some q => str_float L q | None => "None" end.

(** The deterministic template; [None] does not take the format [.3g]. *)
Definition template (f : Facts) : outcome string :=
  let st := match fc_status f with Some s => s | None => "unknown" end in
  if String.eqb st "pass" then
    match fc_measured_norm f with
    | Some m =>
        Ok ("Pass: measured " ++ format_3g L m ++ " " ++ show_str (fc_unit f)
            ++ " meets target " ++ show_float (fc_target f) ++ " "
            ++ show_str (fc_unit f) ++ ".")
    | None => Raise "TypeError"
    end
  else if String.eqb st "fail" then
    match fc_measured_norm f with
    | Some m =>
        Ok ("Fail: measured " ++ format_3g L m ++ " " ++ show_str (fc_unit f)
            ++ " is below/above target " ++ show_float (fc_target f) ++ " "
            ++ show_str (fc_unit f) ++ ".")
    | None => Raise "TypeError"
    end
  else Ok "Unknown: missing unit/comparator/data.".

Definition explain_prompt (dumped : string) : string :=
  "Using ONLY these JSON facts, write 2 short bullets explaining the result.
Facts: " ++ dumped ++ "
".

Definition explain_from_facts (f : Facts) : outcome string :=
  if negb (have_llm w) then template f
  else
    dumped <- json_dumps L (facts_items f) ;;
    match llm_chat w [Msg "user" (explain_prompt dumped)] (2 # 10)%Q with
    | Ok (Some c) => Ok (Str.of_chars (Str.strip (Str.chars c)))
    | Ok None => Ok "Explanation unavailable."
    | Raise _ => Ok "Explanation unavailable."
    end.

(** *** Chat to filters *)

Definition dq (s : string) : string :=
  String (ascii_of_nat 34) (s ++ String (ascii_of_nat 34) EmptyString).

Definition CHAT_SYS : string :=
  "You convert a user's query about tests into JSON filters with keys:
component, metric, status (pass/fail/unknown), min_value (number), unit.

IMPORTANT RULES:
- Words like " ++ dq "failed" ++ ", " ++ dq "passing" ++ ", " ++ dq "passed"
  ++ " are STATUS not component names
- Component names are physical parts like " ++ dq "door" ++ ", "
  ++ dq "bumper" ++ ", " ++ dq "engine" ++ ", etc.
- Status values: " ++ dq "fail" ++ " for failed/failing, " ++ dq "pass"
  ++ " for passed/passing

Examples:
- " ++ dq "show failed components" ++ " → {" ++ dq "status" ++ ": "
  ++ dq "fail" ++ "}  
- " ++ dq "show failed components with kN unit" ++ " → {" ++ dq "status"
  ++ ": " ++ dq "fail" ++ ", " ++ dq "unit" ++ ": " ++ dq "kN" ++ "}
- " ++ dq "show tests with unit kN" ++ " → {" ++ dq "unit" ++ ": "
  ++ dq "kN" ++ "}
- " ++ dq "show failed tests > 100 N" ++ " → {" ++ dq "status" ++ ": "
  ++ dq "fail" ++ ", " ++ dq "min_value" ++ ": 100, " ++ dq "unit" ++ ": "
  ++ dq "N" ++ "}
- " ++ dq "show door components with kN unit" ++ " → {" ++ dq "component"
  ++ ": " ++ dq "door" ++ ", " ++ dq "unit" ++ ": " ++ dq "kN" ++ "}
- " ++ dq "show passed door tests" ++ " → {" ++ dq "component" ++ ": "
  ++ dq "door" ++ ", " ++ dq "status" ++ ": " ++ dq "pass" ++ "}

Return ONLY JSON. If a key is absent, omit it.".

(** The body of the [try] block of [parse_query_to_filters]. *)
Definition llm_parse (q : string) : outcome ChatFilter :=
  answer <- llm_chat w [Msg "system" CHAT_SYS; Msg "user" q] 0%Q ;;
  data <- load_answer answer ;;
  kv <- items data ;;
  pydantic_ChatFilter L kv.

(** For a text [q], [q or ""] is [q]. *)
Definition parse_query_to_filters (q : string) : outcome ChatFilter :=
  if have_llm w then
    match llm_parse q with
    | Ok f => Ok f
    | Raise _ => Ok (_regex_filters q)
    end
  else Ok (_regex_filters q).

End Consumers.

End Assisted.

(** ** core/validate.py *)

Module Validate.

Local Open Scope Q_scope.

(** The unit library: [ureg.parse_units(u)] and [quantity.to(u).magnitude]
    for a quantity of magnitude [x] in a parsed unit.  A unit cell that is
    missing is [None]. *)
Record UnitRegistry : Type := Registry {
  punit : Type;
  parse_units : option string -> outcome punit;
  to_magnitude : Q -> punit -> option string -> outcome Q
}.

Definition Qlt_bool (a b : Q) : bool := negb (Qle_bool b a).

(** The table OPS. *)
Definition OPS (sym : option string) : option (Q -> Q -> bool) :=
  match sym with
  | None => None
  | Some s =>
      if String.eqb s ">" then Some (fun a b => Qlt_bool b a)
      else if String.eqb s "≥" then Some (fun a b => Qle_bool b a)
      else if String.eqb s ">=" then Some (fun a b => Qle_bool b a)
      else if String.eqb s "=" then
        Some (fun a b => Qlt_bool (Qabs (a - b)) (1 # 1000000000))
      else if String.eqb s "≤" then Some (fun a b => Qle_bool a b)
      else if String.eqb s "<=" then Some (fun a b => Qle_bool a b)
      else if String.eqb s "<" then Some (fun a b => Qlt_bool a b)
      else None
  end.

Record requirement : Type := mkRequirement {
  req_comparator : option string;
  req_value : Q;
  req_unit : option string
}.

Record measurement : Type := mkMeasurement {
  measured_value : Q;
  test_unit : option string
}.

(** The dictionary [validate_row] returns; an absent key is [None]. *)
Record ValidationResult : Type := mkResult {
  status : string;
  reason : option string;
  measured_norm : option Q;
  target : option Q;
  unit : option string
}.

Section WithRegistry.
Variable ureg : UnitRegistry.

Definition normalize (value : Q) (from_unit to_unit : option string)
  : outcome Q :=
  u <- parse_units ureg from_unit ;;
  to_magnitude ureg value u to_unit.

Definition validate_row (req : requirement) (test : measurement)
  : ValidationResult :=
  match normalize (measured_value test) (test_unit test) (req_unit req) with
  | Raise _ =>
      mkResult "unknown" (Some "unit_conversion_failed"%string)
               None None None
  | Ok mv =>
      match OPS (req_comparator req) with
      | None =>
          mkResult "unknown" (Some "invalid_comparator"%string)
                   None None None
      | Some op =>
          let ok := op mv (req_value req) in
          mkResult (if ok then "pass" else "fail") None
                   (Some mv) (Some (req_value req)) (req_unit req)
      end
  end.
End WithRegistry.

End Validate.

(** ** app/main.py: the validation run and the chat filters *)

Module Main.

Import Extract Providers Assisted Validate.
Local Open Scope string_scope.

(** A row of [run_df.merge(req_df, on="req_id", ...)]. *)
Record joined : Type := mkJoined {
  j_test_id : string;
  j_req_id : string;
  j_component_test : cell;
  j_component_req : cell;
  j_component : cell;
  j_metric : option string;
  j_comparator : option string;
  j_value : Q;
  j_unit_req : option string;
  j_measured_value : Q;
  j_unit_test : option string
}.

(** A dictionary appended to [results]: the identifiers, the component, the
    keys of the validation result and the explanation. *)
Record out_row : Type := mkRow {
  test_id : string;
  req_id : string;
  component : cell;
  res : ValidationResult;
  explanation : string
}.

Definition truthy_cell (c : cell) : bool :=
  match c with
  | Absent => false
  | NaN => true
  | Text s => negb (String.eqb s "")
  end.

(** [a or b] on cells. *)
Definition py_or (a b : cell) : cell :=
  if truthy_cell a then a else b.

Definition is_some (A : Type) (o : option A) : bool :=
  match o with Some _ => true | None => false end.

(** The keys of the dictionary [validate_row] returned: [reason] on the two
    early returns, and [measured_norm], [target] and [unit] together on the
    last one. *)
Definition result_keys (r : ValidationResult) : list string :=
  "status" :: (if is_some (reason r) then ["reason"] else [])
  ++ (if is_some (measured_norm r)
      then ["measured_norm"; "target"; "unit"] else []).

Definition row_keys (r : out_row) : list string :=
  ["test_id"; "req_id"; "component"] ++ result_keys (res r)
  ++ ["explanation"].

(** [pd.DataFrame(results)]: the columns are the keys that occur, a cell
    without value is [None]. *)
Record DataFrame : Type := Frame {
  columns : list string;
  rows : list out_row
}.

Definition DataFrame_of (results : list out_row) : DataFrame :=
  Frame (nodup string_dec (flat_map row_keys results)) results.

Definition in_columns (c : string) (df : DataFrame) : bool :=
  existsb (String.eqb c) (columns df).

(** [vf[c]] raises on a column that does not exist. *)
Definition column (c : string) (df : DataFrame) : outcome Datatypes.unit :=
  if in_columns c df then Ok tt else Raise "KeyError".

(** [vf[mask]] *)
Definition keep (p : out_row -> bool) (df : DataFrame) : DataFrame :=
  Frame (columns df) (filter p (rows df)).

Fixpoint map_outcome (A B : Type) (f : A -> outcome B) (l : list A)
  : outcome (list B) :=
  match l with
  | [] => Ok []
  | a :: t => b <- f a ;; bs <- map_outcome f t ;; Ok (b :: bs)
  end.

Definition opt_eqb (o : option string) (s : string) : bool :=
  match o with Some u => String.eqb u s | None => false end.

(** [cell >= min_val]; a missing cell compares false. *)
Definition cell_ge (cell : option Q) (min_val : Q) : bool :=
  match cell with Some m => Qle_bool min_val m | None => false end.

(** [f.get("min_value")] as a condition. *)
Definition truthy_num (o : option Q) : bool :=
  match o with Some q => Num.truthy q | None => false end.

Section App.
Variable w : world.
Variable L : libs.
Variable ureg : UnitRegistry.
(** [Series.str.contains(pat, case=False, na=False)] on one cell. *)
Variable str_contains : string -> cell -> bool.

(** The body of the loop over [merged.iterrows()]. *)
Definition validation_row (r : joined) : outcome out_row :=
  let result :=
    validate_row ureg
      (mkRequirement (j_comparator r) (j_value r) (j_unit_req r))
      (mkMeasurement (j_measured_value r) (j_unit_test r)) in
  let compo :=
    py_or (py_or (j_component_test r) (j_component_req r))
          (j_component r) in
  let facts :=
    mkFacts (Some (j_test_id r)) compo (j_metric r)
            (Some (status result)) (measured_norm result)
            (target result) (unit result) in
  e <- explain_from_facts w L facts ;;
  Ok (mkRow (j_test_id r) (j_req_id r) compo result e).

Definition run_validation (merged : list joined) : outcome DataFrame :=
  results <- map_outcome validation_row merged ;;
  Ok (DataFrame_of results).

(** The loop that converts every row into [target_unit]; a row whose
    conversion raises is passed over. *)
Definition converts_above (target_unit : string) (min_val : Q)
           (r : out_row) : bool :=
  match measured_norm (res r) with
  | None => false
  | Some m =>
      match normalize ureg m (unit (res r)) (Some target_unit) with
      | Ok converted => Qle_bool min_val converted
      | Raise _ => false
      end
  end.

(** [if f.get("component"): ...] *)
Definition by_component (f : ChatFilter) (out : DataFrame)
  : outcome DataFrame :=
  match f_component f with
  | Some c =>
      if truthy_str (Some c) then
        _ <- column "component" out ;;
        Ok (keep (fun r => str_contains c (component r)) out)
      else Ok out
  | None => Ok out
  end.

(** [if f.get("status"): ...] *)
Definition by_status (f : ChatFilter) (vf : DataFrame)
  : outcome DataFrame :=
  match f_status f with
  | Some s =>
      if truthy_str (Some s) then
        _ <- column "status" vf ;;
        Ok (keep (fun r => String.eqb (status (res r)) s) vf)
      else Ok vf
  | None => Ok vf
  end.

(** The unit filter: [if f.get("unit") and not f.get("min_value"): ...] *)
Definition by_unit (f : ChatFilter) (vf : DataFrame) : DataFrame :=
  match f_unit f with
  | Some u =>
      if truthy_str (Some u) && negb (truthy_num (f_min_value f))
         && in_columns "unit" vf
      then keep (fun r => opt_eqb (unit (res r)) u) vf
      else vf
  | None => vf
  end.

(** The threshold filter: [if f.get("min_value"): ...] *)
Definition by_min_value (f : ChatFilter) (vf : DataFrame)
  : outcome DataFrame :=
  match f_min_value f with
  | Some min_val =>
      if Num.truthy min_val then
        match f_unit f with
        | Some target_unit =>
            if truthy_str (Some target_unit) then
              if in_columns "measured_norm" vf then
                _ <- column "unit" vf ;;
                let mask := fun r => opt_eqb (unit (res r)) target_unit in
                if existsb mask (rows vf) then
                  Ok (keep (fun r => mask r
                              && cell_ge (measured_norm (res r)) min_val)
                           vf)
                else Ok (keep (converts_above target_unit min_val) vf)
              else Ok vf
            else if in_columns "measured_norm" vf then
              Ok (keep (fun r => cell_ge (measured_norm (res r)) min_val)
                       vf)
            else Ok vf
        | None =>
            if in_columns "measured_norm" vf then
              Ok (keep (fun r => cell_ge (measured_norm (res r)) min_val)
                       vf)
            else Ok vf
        end
      else Ok vf
  | None => Ok vf
  end.

(** The filters applied to [out] once [f] is known, in the order of the
    source. *)
Definition apply_filters (f : ChatFilter) (out : DataFrame)
  : outcome DataFrame :=
  vf1 <- by_component f out ;;
  vf2 <- by_status f vf1 ;;
  by_min_value f (by_unit f vf2).

(** The handler of the button: parse the query, then filter. *)
Definition chat_filters (q : string) (out : DataFrame)
  : outcome DataFrame :=
  f <- parse_query_to_filters w L q ;;
  apply_filters f out.
End App.

End Main.

(** ** A unit registry for the units the program names *)

Module Units.

Import Validate.
Local Open Scope string_scope.

(** Modelled from the spec: the unit library (pint) is not part of the
    repository.  The specification asks for the force units kN and N and the
    length unit mm, converted by dimensional unit algebra, and for a failure
    on units that are unknown or of different dimensions.  A unit is a
    dimension and its size in the base unit of that dimension. *)
Definition UNITS : list (string * (string * Q)) :=
  [ ("kN", ("force", 1000%Q));
    ("N", ("force", 1%Q));
    ("mm", ("length", (1 # 1000)%Q)) ].

Fixpoint assoc (A : Type) (k : string) (l : list (string * A)) : option A :=
  match l with
  | [] => None
  | (k', v) :: t => if String.eqb k k' then Some v else assoc k t
  end.

Definition lookup_unit (u : option string) : outcome (string * Q) :=
  match u with
  | None => Raise "TypeError"
  | Some s =>
      match assoc s UNITS with
      | Some d => Ok d
      | None => Raise "UndefinedUnitError"
      end
  end.

Definition si_registry : UnitRegistry :=
  Registry lookup_unit
    (fun x from to_unit =>
       d <- lookup_unit to_unit ;;
       if String.eqb (fst from) (fst d)
       then Ok (x * snd from / snd d)%Q
       else Raise "DimensionalityError").

End Units.

(** * Properties *)

(** ** The row validator *)

Module ValidateFacts.

Import Validate Units.
Local Open Scope string_scope.

(** The symbols OPS has an entry for. *)
Definition COMPARATORS : list string :=
  [">"; "≥"; ">="; "="; "≤"; "<="; "<"].

Definition recognized (c : option string) : Prop :=
  exists s, c = Some s /\ In s COMPARATORS.

Lemma OPS_recognized (c : option string) :
  (exists op, OPS c = Some op) <-> recognized c.
Proof.
  unfold recognized, OPS, COMPARATORS. destruct c as [s|].
  - split.
    + intros [op H]. exists s. split; [reflexivity|].
      repeat match type of H with
             | context [String.eqb s ?k] =>
                 destruct (String.eqb_spec s k) as [->|_];
                 [ simpl; tauto | ]
             end.
      discriminate.
    + intros [s' [E H]]. injection E as <-. simpl in H.
      repeat (destruct H as [<-|H]; [ simpl; eexists; reflexivity | ]).
      contradiction.
  - split; [intros [op H]; discriminate | intros [s [H _]]; discriminate].
Qed.

Lemma OPS_unrecognized (c : option string) :
  OPS c = None <-> ~ recognized c.
Proof.
  rewrite <- OPS_recognized. destruct (OPS c) as [op|].
  - split; [discriminate | intros H; exfalso; apply H; eauto].
  - split; [intros _ [op H]; discriminate | reflexivity].
Qed.

Lemma pass_or_fail (b : bool) :
  (if b then "pass" else "fail") <> "unknown".
Proof. destruct b; discriminate. Qed.

(** C1. [validate_row] answers "unknown" exactly when the conversion of the
    measured value into the unit of the requirement raises or the comparator
    is not a symbol of OPS; and it answers "pass" or "fail" only when the
    conversion succeeded and the comparator is such a symbol. *)
Theorem C1_unknown_iff_failure :
  forall (ureg : UnitRegistry) (req : requirement) (test : measurement),
    let r := validate_row ureg req test in
    let conv :=
      normalize ureg (measured_value test) (test_unit test) (req_unit req) in
    (status r = "unknown"
     <-> ((exists e, conv = Raise e) \/ ~ recognized (req_comparator req)))
    /\ (status r = "pass" \/ status r = "fail"
        -> (exists mv, conv = Ok mv) /\ recognized (req_comparator req)).
Proof.
  intros ureg req test. cbv zeta. unfold validate_row.
  destruct (normalize ureg (measured_value test) (test_unit test)
                      (req_unit req)) as [mv|e].
  - destruct (OPS (req_comparator req)) as [op|] eqn:E.
    + assert (R : recognized (req_comparator req))
        by (apply OPS_recognized; eauto).
      simpl. split.
      * split.
        -- intros H. exfalso. exact (pass_or_fail _ H).
        -- intros [[e H]|H]; [discriminate | contradiction].
      * intros _. eauto.
    + apply OPS_unrecognized in E. simpl. split.
      * split; auto.
      * intros [H|H]; discriminate.
  - simpl. split.
    + split; eauto.
    + intros [H|H]; discriminate.
Qed.

(** C2. With the requirement of at least 5.5 kN, a measurement of 6000 N
    passes with a normalised value of 6, the target 5.5 and the unit kN, and
    a measurement of 5000 N fails with a normalised value of 5. *)
Theorem C2_validate_row_examples :
  let req := mkRequirement (Some "≥") (55 # 10) (Some "kN") in
  let r1 := validate_row si_registry req (mkMeasurement 6000 (Some "N")) in
  let r2 := validate_row si_registry req (mkMeasurement 5000 (Some "N")) in
  (status r1 = "pass"
   /\ (exists m, measured_norm r1 = Some m
                 /\ (Qabs (m - 6) < 1 # 1000000000)%Q)
   /\ (exists t, target r1 = Some t /\ (t == 55 # 10)%Q)
   /\ unit r1 = Some "kN")
  /\ (status r2 = "fail"
      /\ exists m, measured_norm r2 = Some m
                   /\ (Qabs (m - 5) < 1 # 1000000000)%Q).
Proof.
  cbv zeta. repeat split.
  - eexists. split; [reflexivity | reflexivity].
  - eexists. split; reflexivity.
  - eexists. split; reflexivity.
Qed.

(** The reading of C4 that the code refutes: a successful conversion alone
    would populate [measured_norm]. *)
Definition measured_norm_whenever_normalized : Prop :=
  forall (ureg : UnitRegistry) (req : requirement) (test : measurement) mv,
    normalize ureg (measured_value test) (test_unit test) (req_unit req)
    = Ok mv ->
    measured_norm (validate_row ureg req test) <> None.

(** C4, refuted: 1 N against a requirement in N with the comparator "?"
    converts, and the result carries no [measured_norm]. *)
Lemma C4_counterexample : ~ measured_norm_whenever_normalized.
Proof.
  intros H.
  apply (H si_registry (mkRequirement (Some "?") 1 (Some "N"))
           (mkMeasurement 1 (Some "N")) (1 * 1 / 1)%Q);
    reflexivity.
Qed.

(** C4, amended. [measured_norm] is populated, with the converted value,
    exactly when the conversion succeeded and the comparator is a symbol of
    OPS; a successful conversion with a missing or invalid comparator gives
    status "unknown", reason "invalid_comparator" and no [measured_norm]. *)
Theorem C4_measured_norm_iff_decided :
  forall (ureg : UnitRegistry) (req : requirement) (test : measurement),
    let r := validate_row ureg req test in
    let conv :=
      normalize ureg (measured_value test) (test_unit test) (req_unit req) in
    (forall mv, measured_norm r = Some mv
                <-> conv = Ok mv /\ recognized (req_comparator req))
    /\ (forall mv, conv = Ok mv -> ~ recognized (req_comparator req) ->
                   status r = "unknown"
                   /\ reason r = Some "invalid_comparator"
                   /\ measured_norm r = None).
Proof.
  intros ureg req test. cbv zeta. unfold validate_row.
  destruct (normalize ureg (measured_value test) (test_unit test)
                      (req_unit req)) as [mv|e].
  - destruct (OPS (req_comparator req)) as [op|] eqn:E.
    + assert (R : recognized (req_comparator req))
        by (apply OPS_recognized; eauto).
      simpl. split.
      * intros mv'. split.
        -- intros H. injection H as <-. auto.
        -- intros [H _]. injection H as <-. reflexivity.
      * intros mv' _ N. contradiction.
    + apply OPS_unrecognized in E. simpl. split.
      * intros mv'. split; [discriminate | intros [_ R]; contradiction].
      * auto.
  - simpl. split.
    + intros mv'. split; [discriminate | intros [H _]; discriminate].
    + intros mv' H. discriminate.
Qed.

End ValidateFacts.

(** ** Degradation when the reasoning backend fails *)

Module AssistedFacts.

Import Extract Filters Providers Assisted.
Local Open Scope string_scope.

(** The three ways a call to the backend fails: no key is configured, the
    chat call raises, or the answer does not decode into the schema. *)
Inductive backend_failure (A : Type) (w : world) (messages : list message)
          (temperature : Q) (decode : option string -> outcome A) : Prop :=
| Unavailable :
    have_llm w = false ->
    backend_failure w messages temperature decode
| TransportError (e : string) :
    have_llm w = true ->
    llm_chat w messages temperature = Raise e ->
    backend_failure w messages temperature decode
| MalformedResponse (answer : option string) (e : string) :
    have_llm w = true ->
    llm_chat w messages temperature = Ok answer ->
    decode answer = Raise e ->
    backend_failure w messages temperature decode.

(** What the [try] blocks do with an answer. *)
Definition decode_req (L : libs) (answer : option string) : outcome ReqJSON :=
  data <- load_answer L answer ;;
  kv <- items data ;;
  pydantic_ReqJSON L (filter (fun p => negb (is_null (snd p))) kv).

Definition decode_filter (L : libs) (answer : option string)
  : outcome ChatFilter :=
  data <- load_answer L answer ;;
  kv <- items data ;;
  pydantic_ChatFilter L kv.

(** The explanation reads the answer as it is; only an answer without text
    fails. *)
Definition decode_explanation (answer : option string) : outcome string :=
  match answer with
  | Some c => Ok (Str.of_chars (Str.strip (Str.chars c)))
  | None => Raise "AttributeError"
  end.

Definition req_messages (t : string) : list message :=
  [Msg "system" REQ_SYS_PROMPT; Msg "user" (REQ_USER_TMPL t)].

Definition filter_messages (q : string) : list message :=
  [Msg "system" CHAT_SYS; Msg "user" q].

Definition explain_messages (dumped : string) : list message :=
  [Msg "user" (explain_prompt dumped)].

Definition stripped (text : string) : string :=
  Str.of_chars (Str.strip (Str.chars text)).

Lemma extract_falls_back (w : world) (L : libs) (text : string) :
  stripped text <> "" ->
  backend_failure w (req_messages (stripped text)) 0%Q (decode_req L) ->
  extract_requirement_text_to_json w L text
  = Ok (_regex_req (stripped text)).
Proof.
  intros NE F. unfold extract_requirement_text_to_json.
  fold (stripped text).
  destruct (String.eqb_spec (stripped text) "") as [E|_]; [contradiction|].
  unfold llm_extract. fold (req_messages (stripped text)).
  destruct F as [U | e A C | a e A C D].
  - rewrite U. reflexivity.
  - rewrite A, C. reflexivity.
  - rewrite A, C. simpl. unfold decode_req in D. rewrite D. reflexivity.
Qed.

Lemma parse_falls_back (w : world) (L : libs) (q : string) :
  backend_failure w (filter_messages q) 0%Q (decode_filter L) ->
  parse_query_to_filters w L q = Ok (_regex_filters q).
Proof.
  intros F. unfold parse_query_to_filters, llm_parse.
  fold (filter_messages q).
  destruct F as [U | e A C | a e A C D].
  - rewrite U. reflexivity.
  - rewrite A, C. reflexivity.
  - rewrite A, C. simpl. unfold decode_filter in D. rewrite D. reflexivity.
Qed.

Lemma explain_without_backend (w : world) (L : libs) (f : Facts) :
  have_llm w = false ->
  explain_from_facts w L f = template L f.
Proof. intros U. unfold explain_from_facts. rewrite U. reflexivity. Qed.

Lemma explain_on_failure (w : world) (L : libs) (f : Facts) (dumped : string) :
  json_dumps L (facts_items f) = Ok dumped ->
  have_llm w = true ->
  backend_failure w (explain_messages dumped) (2 # 10)%Q
                  decode_explanation ->
  explain_from_facts w L f = Ok "Explanation unavailable.".
Proof.
  intros J A F. unfold explain_from_facts. rewrite A, J. simpl.
  fold (explain_messages dumped).
  destruct F as [U | e _ C | a e _ C D].
  - congruence.
  - rewrite C. reflexivity.
  - rewrite C. destruct a; [discriminate | reflexivity].
Qed.

(** The reading of C3 that the code refutes, for the explanation: any
    failure of the backend would give the result of the template. *)
Definition explain_failure_gives_template : Prop :=
  forall (w : world) (L : libs) (f : Facts) (dumped : string),
    json_dumps L (facts_items f) = Ok dumped ->
    backend_failure w (explain_messages dumped) (2 # 10)%Q
                    decode_explanation ->
    explain_from_facts w L f = template L f.

(** A backend with a key whose chat call always raises. *)
Definition broken_world : world :=
  World (Some "key") (fun _ _ => Raise "connection reset").

(** Libraries of which only the shape matters here. *)
Definition plain_libs : libs :=
  Libs (fun _ => Raise "JSONDecodeError") (fun _ => Ok "{}")
       (fun _ => Raise "ValidationError") (fun _ => Raise "ValidationError")
       (fun _ => "") (fun _ => "").

Definition unknown_facts : Facts :=
  mkFacts (Some "T1") Absent None (Some "unknown") None None None.




(** C6. Without a configured key the three queries parse to the status
    "fail" with the component "door", to the unit "kN" alone, and to the
    status "fail" with the threshold 100 and the unit "N"; every other field
    is empty. *)
Theorem C6_fallback_filter_examples :
  forall (w : world) (L : libs),
    have_llm w = false ->
    parse_query_to_filters w L "show failed door tests"
    = Ok (mkFilter (Some "door") None (Some "fail") None None)
    /\ parse_query_to_filters w L "show tests with unit kN"
       = Ok (mkFilter None None None None (Some "kN"))
    /\ parse_query_to_filters w L "show failed tests > 100 N"
       = Ok (mkFilter None None (Some "fail") (Some 100%Q) (Some "N")).
Proof.
  intros w L U. unfold parse_query_to_filters. rewrite U.
  repeat split; vm_compute; reflexivity.
Qed.

Definition no_key_world : world :=
  World None (fun _ _ => Raise "unreachable").

Lemma C6_witness :
  have_llm no_key_world = false
  /\ parse_query_to_filters no_key_world plain_libs "show failed door tests"
     = Ok (mkFilter (Some "door") None (Some "fail") None None).
Proof.
  split; [reflexivity|].
  exact (proj1 (C6_fallback_filter_examples no_key_world plain_libs eq_refl)).
Defined.

End AssistedFacts.

(** ** The matcher against a declarative reading of the patterns *)

Module ReFacts.

Import Re.

(** The character before the position reached after reading [s]. *)
Fixpoint last_char (pv : option ascii) (s : list ascii) : option ascii :=
  match s with
  | [] => pv
  | c :: s' => last_char (Some c) s'
  end.

Definition word_opt (pv : option ascii) : bool :=
  match pv with Some c => Str.is_word c | None => false end.

Definition word_head (l : list ascii) : bool :=
  match l with c :: _ => Str.is_word c | [] => false end.

(** [Matches ci r pv s post]: the pattern [r] matches the text [s] when the
    character before [s] is [pv] and the text after [s] is [post]. *)
Inductive Matches (ci : bool)
  : regex -> option ascii -> list ascii -> list ascii -> Prop :=
| M_Eps pv post : Matches ci Eps pv [] post
| M_Chr c x pv post :
    chr_eq ci c x = true -> Matches ci (Chr c) pv [x] post
| M_Cls cl x pv post :
    in_class cl x = true -> Matches ci (Cls cl) pv [x] post
| M_Star cl pv s post :
    forallb (in_class cl) s = true -> Matches ci (Star cl) pv s post
| M_Cat a b pv s1 s2 post :
    Matches ci a pv s1 (s2 ++ post) ->
    Matches ci b (last_char pv s1) s2 post ->
    Matches ci (Cat a b) pv (s1 ++ s2) post
| M_AltL a b pv s post :
    Matches ci a pv s post -> Matches ci (Alt a b) pv s post
| M_AltR a b pv s post :
    Matches ci b pv s post -> Matches ci (Alt a b) pv s post
| M_OptSome a pv s post :
    Matches ci a pv s post -> Matches ci (Opt a) pv s post
| M_OptNone a pv post : Matches ci (Opt a) pv [] post
| M_Bol post : Matches ci Bol None [] post
| M_Wb pv post :
    xorb (word_opt pv) (word_head post) = true -> Matches ci Wb pv [] post
| M_Grp n a pv s post :
    Matches ci a pv s post -> Matches ci (Grp n a) pv s post.

#[local] Hint Constructors Matches : core.

Lemma last_char_app pv s1 s2 :
  last_char pv (s1 ++ s2) = last_char (last_char pv s1) s2.
Proof. revert pv. induction s1 as [|c s1 IH]; intros pv; simpl; auto. Qed.

Section Soundness.
Variable A : Type.
Variable ci : bool.

Lemma star_sound (p : ascii -> bool) (k : mstate -> option A) :
  forall l i pv cs x,
    star p k i pv cs l = Some x ->
    exists s post,
      l = s ++ post /\ forallb p s = true
      /\ k (MState (i + length s) (last_char pv s) post cs) = Some x.
Proof.
  induction l as [|c l IH]; intros i pv cs x H; simpl in H.
  - exists [], []. simpl. rewrite Nat.add_0_r. auto.
  - destruct (p c) eqn:P.
    + destruct (star p k (S i) (Some c) cs l) as [r|] eqn:E.
      * injection H as <-. destruct (IH _ _ _ _ E) as (s & post & -> & F & K).
        exists (c :: s), post. simpl. rewrite P, F.
        rewrite <- Nat.add_succ_comm. auto.
      * exists [], (c :: l). simpl. rewrite Nat.add_0_r. auto.
    + exists [], (c :: l). simpl. rewrite Nat.add_0_r. auto.
Qed.

Lemma run_sound (r : regex) :
  forall (k : mstate -> option A) st x,
    run ci r k st = Some x ->
    exists s post cs,
      rest st = s ++ post /\ Matches ci r (prev st) s post
      /\ k (MState (pos st + length s) (last_char (prev st) s) post cs)
         = Some x.
Proof.
  induction r as [ | c | cl | cl | a IHa b IHb | a IHa b IHb | a IHa
                 | | | n a IHa ];
    intros k [i pv l cs] x H; simpl in *.
  - exists [], l, cs. simpl. rewrite Nat.add_0_r. auto.
  - destruct l as [|y l]; [discriminate|].
    destruct (chr_eq ci c y) eqn:E; [|discriminate].
    exists [y], l, cs. simpl. rewrite Nat.add_1_r. auto.
  - destruct l as [|y l]; [discriminate|].
    destruct (in_class cl y) eqn:E; [|discriminate].
    exists [y], l, cs. simpl. rewrite Nat.add_1_r. auto.
  - destruct (star_sound _ _ _ _ _ _ H) as (s & post & -> & F & K).
    exists s, post, cs. auto.
  - destruct (IHa _ _ _ H) as (s1 & post1 & cs1 & E1 & M1 & K1).
    destruct (IHb _ _ _ K1) as (s2 & post & cs2 & E2 & M2 & K2).
    simpl in *. subst. exists (s1 ++ s2), post, cs2.
    rewrite <- app_assoc, last_char_app, length_app, Nat.add_assoc. auto.
  - destruct (run ci a k (MState i pv l cs)) as [y|] eqn:E.
    + injection H as <-.
      destruct (IHa _ _ _ E) as (s & post & cs' & ? & ? & ?).
      exists s, post, cs'. auto.
    + destruct (IHb _ _ _ H) as (s & post & cs' & ? & ? & ?).
      exists s, post, cs'. auto.
  - destruct (run ci a k (MState i pv l cs)) as [y|] eqn:E.
    + injection H as <-.
      destruct (IHa _ _ _ E) as (s & post & cs' & ? & ? & ?).
      exists s, post, cs'. auto.
    + exists [], l, cs. simpl. rewrite Nat.add_0_r. auto.
  - destruct pv; [discriminate|].
    exists [], l, cs. simpl. rewrite Nat.add_0_r. auto.
  - destruct (at_boundary (MState i pv l cs)) eqn:E; [|discriminate].
    exists [], l, cs. simpl. rewrite Nat.add_0_r. auto.
  - destruct (IHa _ _ _ H) as (s & post & cs' & E & M & K). simpl in *.
    exists s, post, ((n, (i, i + length s)) :: cs'). auto.
Qed.

Lemma star_complete (p : ascii -> bool) (k : mstate -> option A) :
  forall s post i pv cs,
    forallb p s = true ->
    k (MState (i + length s) (last_char pv s) post cs) <> None ->
    star p k i pv cs (s ++ post) <> None.
Proof.
  induction s as [|c s IH]; intros post i pv cs F K; simpl in *.
  - rewrite Nat.add_0_r in K. destruct post as [|c l]; simpl; auto.
    destruct (p c); auto.
    destruct (star p k (S i) (Some c) cs l); [discriminate | auto].
  - apply andb_true_iff in F as [P F]. rewrite P.
    rewrite <- Nat.add_succ_comm in K.
    specialize (IH post (S i) (Some c) cs F K).
    destruct (star p k (S i) (Some c) cs (s ++ post));
      [discriminate | contradiction].
Qed.

Lemma run_complete (r : regex) pv s post :
  Matches ci r pv s post ->
  forall (k : mstate -> option A) i cs,
    (forall cs', k (MState (i + length s) (last_char pv s) post cs')
                 <> None) ->
    run ci r k (MState i pv (s ++ post) cs) <> None.
Proof.
  induction 1 as [ pv post | c x pv post E | cl x pv post E
                 | cl pv s post F
                 | a b pv s1 s2 post _ IHa _ IHb
                 | a b pv s post _ IH | a b pv s post _ IH
                 | a pv s post _ IH | a pv post | post | pv post E
                 | n a pv s post _ IH ];
    intros k i cs K; simpl in *.
  - specialize (K cs). rewrite Nat.add_0_r in K. exact K.
  - rewrite E. specialize (K cs). rewrite Nat.add_1_r in K. exact K.
  - rewrite E. specialize (K cs). rewrite Nat.add_1_r in K. exact K.
  - apply star_complete; auto.
  - rewrite <- app_assoc. apply IHa. intros cs'. apply IHb. intros cs''.
    specialize (K cs'').
    rewrite last_char_app, length_app, Nat.add_assoc in K. exact K.
  - specialize (IH k i cs K).
    destruct (run ci a k (MState i pv (s ++ post) cs));
      [discriminate | contradiction].
  - destruct (run ci a k (MState i pv (s ++ post) cs));
      [discriminate | auto].
  - specialize (IH k i cs K).
    destruct (run ci a k (MState i pv (s ++ post) cs));
      [discriminate | contradiction].
  - specialize (K cs). rewrite Nat.add_0_r in K.
    destruct (run ci a k (MState i pv post cs)); [discriminate | exact K].
  - specialize (K cs). rewrite Nat.add_0_r in K. exact K.
  - unfold at_boundary, word_before, word_after. simpl.
    fold (word_opt pv). fold (word_head post). rewrite E.
    specialize (K cs). rewrite Nat.add_0_r in K. exact K.
  - apply IH. intros cs'. apply K.
Qed.

End Soundness.

(** [Occurs ci r text]: some part of [text] matches [r]. *)
Definition Occurs (ci : bool) (r : regex) (text : list ascii) : Prop :=
  exists pre s post,
    text = pre ++ s ++ post /\ Matches ci r (last_char None pre) s post.

Lemma match_at_sound ci r i pv l m :
  match_at ci r i pv l = Some m ->
  exists s post,
    l = s ++ post /\ Matches ci r pv s post
    /\ m_start m = i /\ m_end m = i + length s.
Proof.
  unfold match_at. intros H.
  apply run_sound in H as (s & post & cs & E & M & K).
  simpl in *. injection K as <-. exists s, post. auto.
Qed.

Lemma match_at_complete ci r i pv s post :
  Matches ci r pv s post -> match_at ci r i pv (s ++ post) <> None.
Proof.
  intros M. unfold match_at. apply run_complete with (1 := M).
  intros cs'. discriminate.
Qed.

Lemma search_from_sound ci r :
  forall l i pv m,
    search_from ci r i pv l = Some m ->
    exists pre s post,
      l = pre ++ s ++ post /\ Matches ci r (last_char pv pre) s post
      /\ m_start m = i + length pre
      /\ m_end m = i + length pre + length s.
Proof.
  induction l as [|c l IH]; intros i pv m H; simpl in H.
  - destruct (match_at ci r i pv []) as [m'|] eqn:E; [|discriminate].
    injection H as <-.
    apply match_at_sound in E as (s & post & E1 & M & S1 & S2).
    exists [], s, post. simpl. rewrite Nat.add_0_r. auto.
  - destruct (match_at ci r i pv (c :: l)) as [m'|] eqn:E.
    + injection H as <-.
      apply match_at_sound in E as (s & post & E1 & M & S1 & S2).
      exists [], s, post. simpl. rewrite Nat.add_0_r. auto.
    + apply IH in H as (pre & s & post & E1 & M & S1 & S2).
      exists (c :: pre), s, post. simpl. subst l.
      rewrite <- Nat.add_succ_comm. auto.
Qed.

Lemma search_from_complete ci r :
  forall pre s post i pv,
    Matches ci r (last_char pv pre) s post ->
    search_from ci r i pv (pre ++ s ++ post) <> None.
Proof.
  induction pre as [|c pre IH]; intros s post i pv M; simpl in *.
  - pose proof (@match_at_complete ci r i _ _ _ M) as C.
    destruct (s ++ post); simpl;
      destruct (match_at ci r i pv _); try discriminate; contradiction.
  - destruct (match_at ci r i pv (c :: pre ++ s ++ post));
      [discriminate|]. apply IH. exact M.
Qed.

(** [re.search] finds a match exactly when some part of the text matches. *)
Lemma found_iff ci r text : found ci r text = true <-> Occurs ci r text.
Proof.
  unfold found, search, Occurs. split.
  - destruct (search_from ci r 0 None text) as [m|] eqn:E; [|discriminate].
    intros _. apply search_from_sound in E
      as (pre & s & post & E1 & M & _). eauto.
  - intros (pre & s & post & -> & M).
    pose proof (@search_from_complete ci r pre s post 0 None M) as C.
    destruct (search_from ci r 0 None (pre ++ s ++ post));
      [reflexivity | contradiction].
Qed.

Lemma found_false_iff ci r text :
  found ci r text = false <-> ~ Occurs ci r text.
Proof.
  rewrite <- found_iff. destruct (found ci r text); split; congruence.
Qed.

Lemma slice_middle (pre s post : list ascii) :
  Str.slice (length pre) (length pre + length s) (pre ++ s ++ post) = s.
Proof.
  unfold Str.slice.
  replace (length pre + length s - length pre) with (length s) by lia.
  rewrite skipn_app, skipn_all, Nat.sub_diag. simpl.
  rewrite firstn_app, firstn_all, Nat.sub_diag. simpl.
  apply app_nil_r.
Qed.

(** The text of a group that spans the whole pattern is the part of the
    subject that matched. *)
Lemma search_group ci n a text m :
  search ci (Grp (S n) a) text = Some m ->
  exists pre s post,
    text = pre ++ s ++ post /\ Matches ci a (last_char None pre) s post
    /\ group text m (S n) = s.
Proof.
  unfold search.
  assert (G : forall l i pv,
             search_from ci (Grp (S n) a) i pv l = Some m ->
             exists pre s post,
               l = pre ++ s ++ post
               /\ Matches ci a (last_char pv pre) s post
               /\ lookup_cap (S n) (m_caps m)
                  = Some (i + length pre, i + length pre + length s)).
  { induction l as [|c l IH]; intros i pv H; simpl in H.
    - destruct (match_at ci (Grp (S n) a) i pv []) as [m'|] eqn:E;
        [|discriminate].
      injection H as <-. unfold match_at in E. simpl in E.
      apply run_sound in E as (s & post & cs & E1 & M & K).
      simpl in *. injection K as <-. exists [], s, post. simpl.
      rewrite Nat.eqb_refl, Nat.add_0_r. auto.
    - destruct (match_at ci (Grp (S n) a) i pv (c :: l)) as [m'|] eqn:E.
      + injection H as <-. unfold match_at in E. simpl in E.
        apply run_sound in E as (s & post & cs & E1 & M & K).
        simpl in *. injection K as <-. exists [], s, post. simpl.
        rewrite Nat.eqb_refl, Nat.add_0_r. auto.
      + apply IH in H as (pre & s & post & E1 & M & K).
        exists (c :: pre), s, post. simpl. subst l.
        rewrite <- Nat.add_succ_comm. auto. }
  intros H. apply G in H as (pre & s & post & -> & M & K).
  exists pre, s, post. repeat split; auto.
  unfold group. rewrite K. simpl. apply slice_middle.
Qed.

(** *** Reading the constructors *)

Lemma Matches_Alt ci a b pv s post :
  Matches ci (Alt a b) pv s post
  <-> Matches ci a pv s post \/ Matches ci b pv s post.
Proof.
  split.
  - inversion 1; subst; auto.
  - intros [H|H]; auto.
Qed.

Lemma Matches_Cat ci a b pv s post :
  Matches ci (Cat a b) pv s post
  <-> exists s1 s2,
      s = s1 ++ s2 /\ Matches ci a pv s1 (s2 ++ post)
      /\ Matches ci b (last_char pv s1) s2 post.
Proof.
  split.
  - inversion 1; subst; eauto.
  - intros (s1 & s2 & -> & H1 & H2); auto.
Qed.

Lemma Matches_Opt ci a pv s post :
  Matches ci (Opt a) pv s post <-> Matches ci a pv s post \/ s = [].
Proof.
  split.
  - inversion 1; subst; auto.
  - intros [H| ->]; auto.
Qed.

Lemma Matches_Chr ci c pv s post :
  Matches ci (Chr c) pv s post <-> exists x, s = [x] /\ chr_eq ci c x = true.
Proof.
  split.
  - inversion 1; subst; eauto.
  - intros (x & -> & H); auto.
Qed.

Lemma Matches_Star ci cl pv s post :
  Matches ci (Star cl) pv s post <-> forallb (in_class cl) s = true.
Proof. split; [inversion 1; subst; auto | auto]. Qed.

Lemma Matches_Plus ci cl pv s post :
  Matches ci (Plus cl) pv s post
  <-> s <> [] /\ forallb (in_class cl) s = true.
Proof.
  unfold Plus. rewrite Matches_Cat. split.
  - intros (s1 & s2 & -> & H1 & H2).
    inversion H1; subst. inversion H2; subst. simpl.
    split; [discriminate|]. apply andb_true_iff. auto.
  - intros [NE F]. destruct s as [|x s]; [contradiction|].
    simpl in F. apply andb_true_iff in F as [F1 F2].
    exists [x], s. auto.
Qed.

Lemma Matches_Wb ci pv s post :
  Matches ci Wb pv s post
  <-> s = [] /\ xorb (word_opt pv) (word_head post) = true.
Proof.
  split.
  - inversion 1; subst; auto.
  - intros [-> H]; auto.
Qed.

Lemma Matches_Bol ci pv s post :
  Matches ci Bol pv s post <-> s = [] /\ pv = None.
Proof.
  split.
  - inversion 1; subst; auto.
  - intros [-> ->]; auto.
Qed.

Lemma Matches_Grp ci n a pv s post :
  Matches ci (Grp n a) pv s post <-> Matches ci a pv s post.
Proof. split; [inversion 1; subst; auto | auto]. Qed.

(** [Same ci w s]: the texts agree character by character, up to the case
    of letters when [ci] holds. *)
Definition Same (ci : bool) (w s : list ascii) : Prop :=
  Forall2 (fun a b => chr_eq ci a b = true) w s.

Lemma Matches_lit ci w pv s post :
  Matches ci (lit_chars w) pv s post <-> Same ci w s.
Proof.
  unfold Same. revert pv s. induction w as [|c w IH]; intros pv s; simpl.
  - split.
    + inversion 1; subst. constructor.
    + inversion 1; subst. auto.
  - rewrite Matches_Cat. split.
    + intros (s1 & s2 & -> & H1 & H2).
      apply Matches_Chr in H1 as (x & -> & E). simpl.
      constructor; [exact E|]. apply (IH (Some x)). exact H2.
    + inversion 1 as [|? x ? s' E F]; subst.
      exists [x], s'. repeat split; auto.
      apply IH. exact F.
Qed.

Lemma Occurs_Alt ci a b text :
  Occurs ci (Alt a b) text <-> Occurs ci a text \/ Occurs ci b text.
Proof.
  unfold Occurs. split.
  - intros (pre & s & post & E & M). apply Matches_Alt in M as [M|M];
      [left | right]; eauto.
  - intros [(pre & s & post & E & M)|(pre & s & post & E & M)];
      exists pre, s, post; auto.
Qed.

Lemma found_Alt ci a b text :
  found ci (Alt a b) text = found ci a text || found ci b text.
Proof.
  apply eq_true_iff_eq. rewrite orb_true_iff, !found_iff.
  apply Occurs_Alt.
Qed.

End ReFacts.

(** ** Cue phrases: what the patterns of the fallback extractor look for *)

Module Cues.

Import Re ReFacts.

(** [w] occurs in the text, up to the case of letters. *)
Definition Phrase (w : string) (text : list ascii) : Prop :=
  exists pre s post,
    text = pre ++ s ++ post /\ Same true (Str.chars w) s.

(** [a], white space (at least one character) and [b] occur in a row. *)
Definition Spaced (a b : string) (text : list ascii) : Prop :=
  exists pre s1 ws s2 post,
    text = pre ++ (s1 ++ ws ++ s2) ++ post
    /\ Same true (Str.chars a) s1
    /\ ws <> [] /\ forallb Str.is_space ws = true
    /\ Same true (Str.chars b) s2.

(** [w] occurs with no word character right before it and none right after
    it. *)
Definition Word (w : string) (text : list ascii) : Prop :=
  exists pre s post,
    text = pre ++ s ++ post /\ Same true (Str.chars w) s
    /\ word_opt (last_char None pre) = false
    /\ word_head post = false.

(** The text begins with the sign [=] and a word character. *)
Definition LeadingEq (text : list ascii) : Prop :=
  exists c rest, text = "="%char :: c :: rest /\ Str.is_word c = true.

Lemma is_word_lower (c : ascii) :
  Str.is_word (Str.lower_char c) = Str.is_word c.
Proof. destruct c as [[] [] [] [] [] [] [] []]; reflexivity. Qed.

Lemma chr_eq_word (a b : ascii) :
  chr_eq true a b = true -> Str.is_word a = Str.is_word b.
Proof.
  unfold chr_eq, Str.eqc. intros H. apply Ascii.eqb_eq in H.
  rewrite <- (is_word_lower a), <- (is_word_lower b), H. reflexivity.
Qed.

Lemma Same_head w s post :
  Same true w s -> w <> [] -> word_head (s ++ post) = word_head w.
Proof.
  intros H NE. destruct H as [|a b w' s' E _]; [contradiction|].
  simpl. symmetry. apply chr_eq_word. exact E.
Qed.

Lemma Same_last w s :
  Same true w s -> forall pv pv',
    w <> [] -> word_opt (last_char pv s) = word_opt (last_char pv' w).
Proof.
  induction 1 as [|a b w' s' E F IH]; intros pv pv' NE; [contradiction|].
  simpl. destruct F as [|a' b' w'' s'' E' F'].
  - simpl. symmetry. apply chr_eq_word. exact E.
  - apply IH. discriminate.
Qed.

Lemma Same_nil_inv ci w s : Same ci w s -> w <> [] -> s <> [].
Proof. destruct 1; [contradiction | discriminate]. Qed.

Lemma Occurs_Lit (w : string) (text : list ascii) :
  Occurs true (Lit w) text <-> Phrase w text.
Proof.
  unfold Occurs, Phrase, Lit. split;
    intros (pre & s & post & E & M); exists pre, s, post;
    (split; [exact E|]).
  - exact (proj1 (Matches_lit _ _ _ _ _) M).
  - exact (proj2 (Matches_lit _ _ _ _ _) M).
Qed.

Lemma Occurs_Chr (c : ascii) (text : list ascii) :
  Occurs true (Chr c) text <-> Phrase (String c EmptyString) text.
Proof.
  unfold Occurs, Phrase. split; intros (pre & s & post & E & M);
    exists pre, s, post; (split; [exact E|]).
  - apply Matches_Chr in M as (x & -> & H). repeat constructor. exact H.
  - inversion M as [|? x ? ? H F]; subst. inversion F; subst.
    apply Matches_Chr. eauto.
Qed.

Lemma Occurs_two_words (a b : string) (text : list ascii) :
  Occurs true (Extract.two_words a b) text <-> Spaced a b text.
Proof.
  unfold Occurs, Spaced, Extract.two_words, Lit. split.
  - intros (pre & s & post & E & M).
    apply Matches_Cat in M as (s1 & s' & -> & M1 & M2).
    apply Matches_Cat in M2 as (ws & s2 & -> & M2 & M3).
    apply Matches_lit in M1. apply Matches_Plus in M2 as [NE F].
    apply Matches_lit in M3.
    exists pre, s1, ws, s2, post. auto.
  - intros (pre & s1 & ws & s2 & post & E & M1 & NE & F & M3).
    exists pre, (s1 ++ ws ++ s2), post. split; [exact E|].
    apply Matches_Cat. exists s1, (ws ++ s2). split; [reflexivity|].
    split; [apply Matches_lit; exact M1|].
    apply Matches_Cat. exists ws, s2. split; [reflexivity|].
    split; [apply Matches_Plus; auto | apply Matches_lit; exact M3].
Qed.

Lemma Occurs_whole_word (w : string) (text : list ascii) :
  word_head (Str.chars w) = true ->
  word_opt (last_char None (Str.chars w)) = true ->
  Occurs true (Extract.whole_word w) text <-> Word w text.
Proof.
  intros Hh Hl.
  assert (NE : Str.chars w <> []).
  { intros E. rewrite E in Hh. discriminate. }
  unfold Occurs, Word, Extract.whole_word, Lit. split.
  - intros (pre & s & post & E & M).
    apply Matches_Cat in M as (s0 & s' & -> & M0 & M).
    apply Matches_Wb in M0 as [-> B0].
    apply Matches_Cat in M as (s1 & s2 & -> & M1 & M2).
    apply Matches_Wb in M2 as [-> B2]. apply Matches_lit in M1.
    simpl in *. rewrite app_nil_r in *.
    rewrite (Same_head post M1 NE), Hh in B0.
    rewrite (Same_last M1 (last_char None pre) None NE), Hl in B2.
    exists pre, s1, post. repeat split; auto.
    + destruct (word_opt (last_char None pre)); [discriminate | reflexivity].
    + destruct (word_head post); [discriminate | reflexivity].
  - intros (pre & s & post & E & M & B0 & B2).
    exists pre, s, post. split; [exact E|].
    apply Matches_Cat. exists [], s. split; [reflexivity|]. split.
    + apply Matches_Wb. split; [reflexivity|].
      rewrite (Same_head post M NE), Hh, B0. reflexivity.
    + simpl. apply Matches_Cat. exists s, []. split; [symmetry; apply app_nil_r|].
      split; [apply Matches_lit; exact M|].
      apply Matches_Wb. split; [reflexivity|].
      rewrite (Same_last M (last_char None pre) None NE), Hl, B2.
      reflexivity.
Qed.

End Cues.

(** ** The fallback requirement extractor *)

Module ExtractFacts.

Import Re ReFacts Cues Extract.
Local Open Scope string_scope.
Local Open Scope list_scope.

Lemma last_char_None_inv (pre : list ascii) :
  last_char None pre = None -> pre = [].
Proof.
  destruct pre as [|c pre]; [reflexivity|]. simpl.
  generalize c. induction pre as [|d pre IH]; intros c0 H; simpl in H.
  - discriminate.
  - apply IH in H. discriminate.
Qed.

Lemma lower_is_eq_sign (x : ascii) :
  chr_eq true "="%char x = true -> x = "="%char.
Proof.
  destruct x as [[] [] [] [] [] [] [] []]; vm_compute;
    intros H; (reflexivity || discriminate H).
Qed.

Lemma eq_sign_not_word : Str.is_word "="%char = false.
Proof. reflexivity. Qed.

(** [\bequals?\b] *)
Definition re_equals : regex :=
  Cat Wb (Cat (Lit "equal") (Cat (Opt (Chr "s")) Wb)).

Lemma Occurs_equals (t : list ascii) :
  Occurs true re_equals t <-> Word "equal" t \/ Word "equals" t.
Proof.
  unfold Occurs, Word, re_equals, Lit. split.
  - intros (pre & s & post & E & M).
    apply Matches_Cat in M as (s0 & s' & -> & M0 & M).
    apply Matches_Wb in M0 as [-> B0].
    apply Matches_Cat in M as (s1 & s2 & -> & M1 & M).
    apply Matches_Cat in M as (so & s3 & -> & M2 & M3).
    apply Matches_Wb in M3 as [-> B3].
    apply (proj1 (Matches_lit _ _ _ _ _)) in M1.
    assert (NE : Str.chars "equal" <> []) by discriminate.
    simpl app in *. rewrite app_nil_r in *.
    rewrite <- app_assoc in B0.
    rewrite (Same_head (so ++ post) M1 NE) in B0.
    change (word_head (Str.chars "equal")) with true in B0.
    assert (P0 : word_opt (last_char None pre) = false)
      by (destruct (word_opt (last_char None pre));
          [discriminate | reflexivity]).
    apply Matches_Opt in M2 as [M2| ->].
    + apply Matches_Chr in M2 as (x & -> & X). right.
      exists pre, (s1 ++ [x]), post. split; [exact E|]. split.
      * change (Str.chars "equals")
          with (Str.chars "equal" ++ Str.chars "s").
        apply Forall2_app; [exact M1|]. repeat constructor. exact X.
      * split; [exact P0|]. simpl in B3.
        rewrite <- (chr_eq_word _ _ X) in B3.
        destruct (word_head post); [discriminate | reflexivity].
    + left. exists pre, s1, post. rewrite app_nil_r in E.
      split; [exact E|]. split; [exact M1|]. split; [exact P0|].
      simpl in B3.
      rewrite (Same_last M1 (last_char None pre) None NE) in B3.
      destruct (word_head post); [discriminate | reflexivity].
  - assert (NE : Str.chars "equal" <> []) by discriminate.
    intros [(pre & s & post & E & M & B0 & B2)
           |(pre & s & post & E & M & B0 & B2)].
    + exists pre, s, post. split; [exact E|].
      apply Matches_Cat. exists [], s. split; [reflexivity|]. split.
      * apply Matches_Wb. split; [reflexivity|].
        rewrite (Same_head post M NE), B0. reflexivity.
      * apply Matches_Cat. exists s, [].
        split; [symmetry; apply app_nil_r|].
        split; [exact (proj2 (Matches_lit _ _ _ _ _) M)|].
        apply Matches_Cat. exists [], []. split; [reflexivity|].
        split; [apply Matches_Opt; auto|].
        apply Matches_Wb. split; [reflexivity|]. simpl.
        rewrite (Same_last M (last_char None pre) None NE), B2.
        reflexivity.
    + change (Str.chars "equals")
        with (Str.chars "equal" ++ Str.chars "s") in M.
      apply Forall2_app_inv_l in M as (s1 & s2 & M1 & M2 & ->).
      inversion M2 as [|? x ? ? X F]; subst. inversion F; subst.
      exists pre, (s1 ++ [x]), post. split; [reflexivity|].
      apply Matches_Cat. exists [], (s1 ++ [x]). split; [reflexivity|].
      split.
      * apply Matches_Wb. split; [reflexivity|].
        rewrite <- app_assoc, (Same_head ([x] ++ post) M1 NE), B0.
        reflexivity.
      * apply Matches_Cat. exists s1, [x]. split; [reflexivity|].
        split; [exact (proj2 (Matches_lit _ _ _ _ _) M1)|].
        apply Matches_Cat. exists [x], []. split; [reflexivity|].
        split; [apply Matches_Opt; left; apply Matches_Chr; eauto|].
        apply Matches_Wb. split; [reflexivity|]. simpl.
        rewrite <- (chr_eq_word _ _ X), B2. reflexivity.
Qed.

(** [^=\b] *)
Definition re_leading_eq : regex := Cat Bol (Cat (Chr "=") Wb).

Lemma Occurs_leading_eq (t : list ascii) :
  Occurs true re_leading_eq t <-> LeadingEq t.
Proof.
  unfold Occurs, LeadingEq, re_leading_eq. split.
  - intros (pre & s & post & E & M).
    apply Matches_Cat in M as (s0 & s' & -> & M0 & M).
    apply Matches_Bol in M0 as [-> P].
    apply last_char_None_inv in P. subst pre.
    apply Matches_Cat in M as (s1 & s2 & -> & M1 & M2).
    apply Matches_Chr in M1 as (x & -> & X).
    apply Matches_Wb in M2 as [-> B]. simpl in *.
    apply lower_is_eq_sign in X. subst x.
    rewrite eq_sign_not_word in B. simpl in B.
    destruct post as [|c rest]; [discriminate|]. simpl in B.
    exists c, rest. auto.
  - intros (c & rest & -> & W).
    exists [], ["="%char], (c :: rest). split; [reflexivity|].
    apply Matches_Cat. exists [], ["="%char]. split; [reflexivity|].
    split; [apply Matches_Bol; auto|].
    apply Matches_Cat. exists ["="%char], []. split; [reflexivity|].
    split; [apply Matches_Chr; eauto|].
    apply Matches_Wb. split; [reflexivity|]. simpl. rewrite W. reflexivity.
Qed.

(** *** The comparator *)

Definition cue_ge (t : list ascii) : Prop :=
  Phrase "≥" t \/ Phrase ">=" t \/ Spaced "at" "least" t
  \/ Phrase "minimum" t \/ Phrase "min" t.

Definition cue_le (t : list ascii) : Prop :=
  Phrase "≤" t \/ Phrase "<=" t \/ Spaced "not" "exceed" t
  \/ Phrase "maximum" t \/ Phrase "max" t.

Definition cue_eq (t : list ascii) : Prop :=
  Word "equal" t \/ Word "equals" t \/ LeadingEq t.

Definition cue_gt (t : list ascii) : Prop :=
  Word "more than" t \/ Phrase ">" t.

Definition cue_lt (t : list ascii) : Prop :=
  Word "less than" t \/ Phrase "<" t.

Lemma found_re_ge t : found true re_ge t = true <-> cue_ge t.
Proof.
  unfold re_ge, cue_ge.
  rewrite found_iff, !Occurs_Alt, !Occurs_Lit, Occurs_two_words.
  reflexivity.
Qed.

Lemma found_re_le t : found true re_le t = true <-> cue_le t.
Proof.
  unfold re_le, cue_le.
  rewrite found_iff, !Occurs_Alt, !Occurs_Lit, Occurs_two_words.
  reflexivity.
Qed.

Lemma found_re_eq t : found true re_eq t = true <-> cue_eq t.
Proof.
  unfold cue_eq. change re_eq with (Alt re_equals re_leading_eq).
  rewrite found_iff, Occurs_Alt, Occurs_equals, Occurs_leading_eq.
  tauto.
Qed.

Lemma found_re_gt t : found true re_gt t = true <-> cue_gt t.
Proof.
  unfold re_gt, cue_gt.
  rewrite found_iff, Occurs_Alt, Occurs_Chr.
  rewrite Occurs_whole_word by reflexivity. reflexivity.
Qed.

Lemma found_re_lt t : found true re_lt t = true <-> cue_lt t.
Proof.
  unfold re_lt, cue_lt.
  rewrite found_iff, Occurs_Alt, Occurs_Chr.
  rewrite Occurs_whole_word by reflexivity. reflexivity.
Qed.

Lemma comparator_regex_req (text : string) :
  comparator (_regex_req text) = comparator_of (Str.chars text).
Proof.
  unfold _regex_req.
  destruct (search true re_value_unit (Str.chars text)); reflexivity.
Qed.

(** The reading of C5 that the code refutes: the rule for "at least" would
    fire on the four cues of the specification and on nothing else. *)
Definition claimed_cue_ge (t : list ascii) : Prop :=
  Phrase "≥" t \/ Spaced "at" "least" t
  \/ Phrase "minimum" t \/ Phrase "min" t.

Definition ge_rule_fires_on_four_cues : Prop :=
  forall text : string,
    comparator (_regex_req text) = Some "≥"
    <-> claimed_cue_ge (Str.chars text).



(** *** The condition *)

Definition cue_ambient (t : list ascii) : Prop :=
  Phrase "ambient" t \/ Phrase "room temperature" t.

(** A temperature: an optional minus sign, digits, white space if any, the
    degree sign, white space if any, and a capital C. *)
Definition Temperature (s : list ascii) : Prop :=
  exists sign ds ws1 ws2,
    s = sign ++ ds ++ ws1 ++ Str.chars "°" ++ ws2 ++ ["C"%char]
    /\ (sign = [] \/ sign = ["-"%char])
    /\ ds <> [] /\ forallb Str.is_digit ds = true
    /\ forallb Str.is_space ws1 = true
    /\ forallb Str.is_space ws2 = true.

Definition HasTemperature (t : list ascii) : Prop :=
  exists pre s post, t = pre ++ s ++ post /\ Temperature s.

Lemma Same_false_eq w s : Same false w s <-> w = s.
Proof.
  unfold Same. split.
  - induction 1 as [|a b w' s' E _ IH]; [reflexivity|].
    apply Ascii.eqb_eq in E. subst. reflexivity.
  - intros <-. induction w as [|a w IH]; constructor; [|exact IH].
    apply Ascii.eqb_refl.
Qed.

Lemma Matches_temperature pv s post :
  Matches false re_temperature pv s post <-> Temperature s.
Proof.
  unfold re_temperature, Temperature, Lit. split.
  - intros M.
    apply Matches_Cat in M as (sign & s1 & -> & M0 & M).
    apply Matches_Cat in M as (ds & s2 & -> & M1 & M).
    apply Matches_Cat in M as (ws1 & s3 & -> & M2 & M).
    apply Matches_Cat in M as (deg & s4 & -> & M3 & M).
    apply Matches_Cat in M as (ws2 & c & -> & M4 & M5).
    apply Matches_Opt in M0. apply Matches_Plus in M1 as [NE D].
    apply Matches_Star in M2. apply Matches_Star in M4.
    apply (proj1 (Matches_lit _ _ _ _ _)) in M3.
    apply Same_false_eq in M3. subst deg.
    apply Matches_Chr in M5 as (x & -> & X).
    apply Ascii.eqb_eq in X. subst x.
    exists sign, ds, ws1, ws2. repeat split; auto.
    destruct M0 as [M0|M0]; [right | left; exact M0].
    apply Matches_Chr in M0 as (x & -> & X).
    apply Ascii.eqb_eq in X. subst x. reflexivity.
  - intros (sign & ds & ws1 & ws2 & -> & S & NE & D & W1 & W2).
    apply Matches_Cat. exists sign, (ds ++ ws1 ++ Str.chars "°" ++ ws2 ++ ["C"%char]).
    split; [reflexivity|]. split.
    { apply Matches_Opt. destruct S as [->| ->]; [right; reflexivity|].
      left. apply Matches_Chr. eexists. split; reflexivity. }
    apply Matches_Cat. exists ds, (ws1 ++ Str.chars "°" ++ ws2 ++ ["C"%char]).
    split; [reflexivity|]. split; [apply Matches_Plus; auto|].
    apply Matches_Cat. exists ws1, (Str.chars "°" ++ ws2 ++ ["C"%char]).
    split; [reflexivity|]. split; [apply Matches_Star; exact W1|].
    apply Matches_Cat. exists (Str.chars "°"), (ws2 ++ ["C"%char]).
    split; [reflexivity|]. split.
    { apply Matches_lit. apply Same_false_eq. reflexivity. }
    apply Matches_Cat. exists ws2, ["C"%char].
    split; [reflexivity|]. split; [apply Matches_Star; exact W2|].
    apply Matches_Chr. eexists. split; reflexivity.
Qed.

Lemma found_temperature t :
  found false re_temperature t = true <-> HasTemperature t.
Proof.
  rewrite found_iff. unfold Occurs, HasTemperature.
  split; intros (pre & s & post & E & M); exists pre, s, post;
    (split; [exact E|]).
  - exact (proj1 (Matches_temperature _ _ _) M).
  - exact (proj2 (Matches_temperature _ _ _) M).
Qed.

Lemma found_ambient t : found true re_ambient t = true <-> cue_ambient t.
Proof.
  unfold re_ambient, cue_ambient.
  rewrite found_iff, Occurs_Alt, !Occurs_Lit. reflexivity.
Qed.

Lemma condition_regex_req (text : string) :
  condition (_regex_req text) = condition_of (Str.chars text).
Proof.
  unfold _regex_req.
  destruct (search true re_value_unit (Str.chars text)); reflexivity.
Qed.

(** When the temperature pattern is found, the second search returns a
    part of the text that is a temperature. *)
Lemma temperature_group t :
  HasTemperature t ->
  exists m pre s post,
    search false (Grp 1 re_temperature) t = Some m
    /\ t = pre ++ s ++ post /\ Temperature s /\ group t m 1 = s.
Proof.
  intros (pre & s & post & E & T).
  assert (O : Occurs false (Grp 1 re_temperature) t).
  { exists pre, s, post. split; [exact E|]. apply Matches_Grp.
    apply Matches_temperature. exact T. }
  apply found_iff in O. unfold found in O.
  destruct (search false (Grp 1 re_temperature) t) as [m|] eqn:S;
    [|discriminate].
  apply search_group in S as S'.
  destruct S' as (pre' & s' & post' & E' & M & G).
  exists m, pre', s', post'. repeat split; auto.
  exact (proj1 (Matches_temperature _ _ _) M).
Qed.

Lemma Temperature_ends_with_C s :
  Temperature s -> exists s', s = s' ++ ["C"%char].
Proof.
  intros (sign & ds & ws1 & ws2 & -> & _).
  exists (sign ++ ds ++ ws1 ++ Str.chars "°" ++ ws2).
  rewrite <- !app_assoc. reflexivity.
Qed.

(** The reading of C8 that the code refutes: a text with a temperature
    would always get that temperature as its condition. *)
Definition temperature_wins : Prop :=
  forall text : string,
    HasTemperature (Str.chars text) ->
    exists s, Temperature s
              /\ condition (_regex_req text) = Some (Str.of_chars s).



End ExtractFacts.

(** ** The fallback query parser *)

Module FiltersFacts.

Import Re ReFacts Cues Extract Filters.
Local Open Scope string_scope.
Local Open Scope list_scope.

(** [w] is a part of [l], wherever it stands. *)
Definition Contains (w : string) (l : list ascii) : Prop :=
  exists pre post, l = pre ++ Str.chars w ++ post.

Lemma starts_with_iff (p l : list ascii) :
  Str.starts_with p l = true <-> exists post, l = p ++ post.
Proof.
  revert l. induction p as [|a p IH]; intros l; simpl.
  - split; eauto.
  - destruct l as [|b l].
    + split; [discriminate | intros (post & E); discriminate].
    + unfold Str.eqc. rewrite andb_true_iff, Ascii.eqb_eq, IH. split.
      * intros [-> (post & ->)]. eauto.
      * intros (post & E). injection E as -> ->. eauto.
Qed.

Lemma contains_iff (p l : list ascii) :
  Str.contains p l = true <-> exists pre post, l = pre ++ p ++ post.
Proof.
  induction l as [|c l IH]; simpl.
  - rewrite orb_false_r, starts_with_iff. split.
    + intros (post & E). exists [], post. exact E.
    + intros (pre & post & E). destruct pre; [eauto | discriminate].
  - rewrite orb_true_iff, starts_with_iff, IH. split.
    + intros [(post & E)|(pre & post & ->)].
      * exists [], post. exact E.
      * exists (c :: pre), post. reflexivity.
    + intros (pre & post & E). destruct pre as [|d pre].
      * left. eauto.
      * right. injection E as -> ->. eauto.
Qed.

Lemma has_iff (w : string) (l : list ascii) :
  has w l = true <-> Contains w l.
Proof. apply contains_iff. Qed.

Lemma has_false_iff (w : string) (l : list ascii) :
  has w l = false <-> ~ Contains w l.
Proof.
  rewrite <- has_iff. destruct (has w l); split; congruence.
Qed.

Lemma chars_app (a b : string) :
  Str.chars (a ++ b)%string = Str.chars a ++ Str.chars b.
Proof.
  unfold Str.chars. induction a as [|c a IH]; simpl; [reflexivity|].
  rewrite IH. reflexivity.
Qed.

(** A text that holds [a ++ b] holds [a]. *)
Lemma has_prefix (a b : string) (l : list ascii) :
  has (a ++ b)%string l = true -> has a l = true.
Proof.
  rewrite !has_iff. intros (pre & post & ->).
  exists pre, (Str.chars b ++ post).
  rewrite chars_app, <- app_assoc. reflexivity.
Qed.

Lemma first_such_Some (test : string -> bool) (l : list string) (c : string) :
  first_such test l = Some c
  <-> exists l1 l2,
      l = l1 ++ c :: l2 /\ test c = true
      /\ forall c', In c' l1 -> test c' = false.
Proof.
  induction l as [|a l IH]; simpl.
  - split; [discriminate|]. intros (l1 & l2 & E & _).
    destruct l1; discriminate.
  - destruct (test a) eqn:T.
    + split.
      * intros H. injection H as <-. exists [], l. simpl. tauto.
      * intros ([|b l1] & l2 & E & Tc & N).
        -- injection E as -> _. reflexivity.
        -- injection E as <- _. rewrite (N a) in T by (left; reflexivity).
           discriminate.
    + rewrite IH. split.
      * intros (l1 & l2 & -> & Tc & N). exists (a :: l1), l2.
        repeat split; auto. intros c' [<-|H]; auto.
      * intros ([|b l1] & l2 & E & Tc & N).
        -- injection E as -> _. congruence.
        -- injection E as _ ->. exists l1, l2. repeat split; auto.
           intros c' H. apply N. right. exact H.
Qed.

Lemma first_such_In (test : string -> bool) (l : list string) (c : string) :
  first_such test l = Some c -> In c l /\ test c = true.
Proof.
  rewrite first_such_Some. intros (l1 & l2 & -> & T & _). split; [|exact T].
  apply in_or_app. right. left. reflexivity.
Qed.

Lemma first_hit_In (A : Type) (test : string -> bool)
      (tbl : list (string * A)) (v : A) :
  first_hit test tbl = Some v -> exists k, In (k, v) tbl /\ test k = true.
Proof.
  induction tbl as [|[k a] tbl IH]; simpl; [discriminate|].
  destruct (test k) eqn:T.
  - intros H. injection H as <-. eauto.
  - intros H. destruct (IH H) as (k' & I & T'). eauto.
Qed.

Lemma status_regex_filters (q : string) :
  f_status (_regex_filters q)
  = fst (status_of (Str.lower (Str.chars q))).
Proof.
  unfold _regex_filters.
  destruct (status_of (Str.lower (Str.chars q))).
  destruct (unit_and_threshold (Str.lower (Str.chars q))). reflexivity.
Qed.

Lemma component_regex_filters (q : string) :
  f_component (_regex_filters q)
  = component_of (snd (status_of (Str.lower (Str.chars q)))).
Proof.
  unfold _regex_filters.
  destruct (status_of (Str.lower (Str.chars q))).
  destruct (unit_and_threshold (Str.lower (Str.chars q))). reflexivity.
Qed.

Lemma status_fail_iff (ql : list ascii) :
  fst (status_of ql) = Some "fail" <-> Contains "fail" ql.
Proof.
  rewrite <- has_iff. unfold status_of.
  pose proof (@has_prefix "fail" "ed" ql) as P. simpl in P.
  destruct (has "failed" ql); [simpl; intuition|].
  destruct (has "fail" ql); [simpl; intuition|].
  destruct (has "passed" ql); [simpl; split; discriminate|].
  destruct (has "pass" ql); simpl; split; discriminate.
Qed.

Lemma status_pass_iff (ql : list ascii) :
  fst (status_of ql) = Some "pass"
  <-> Contains "pass" ql /\ ~ Contains "fail" ql.
Proof.
  rewrite <- has_false_iff, <- has_iff. unfold status_of.
  pose proof (@has_prefix "fail" "ed" ql) as P. simpl in P.
  pose proof (@has_prefix "pass" "ed" ql) as P'. simpl in P'.
  destruct (has "failed" ql).
  { rewrite P by reflexivity. simpl. split; [discriminate|].
    intros [_ H]. discriminate. }
  destruct (has "fail" ql).
  { simpl. split; [discriminate|]. intros [_ H]. discriminate. }
  destruct (has "passed" ql).
  { rewrite P' by reflexivity. simpl. tauto. }
  destruct (has "pass" ql); simpl; [tauto|].
  split; [discriminate|]. intros [H _]. discriminate.
Qed.

Lemma component_regex_req (text : string) :
  component (_regex_req text)
  = first_such (fun c => found true (whole_word c) (Str.chars text))
               REQ_COMPONENTS.
Proof.
  unfold _regex_req.
  destruct (search true re_value_unit (Str.chars text)); reflexivity.
Qed.

Lemma metric_regex_req (text : string) :
  metric (_regex_req text) = _alias_metric (Str.chars text).
Proof.
  unfold _regex_req.
  destruct (search true re_value_unit (Str.chars text)); reflexivity.
Qed.

Lemma req_component_is_word (text c : string) :
  component (_regex_req text) = Some c ->
  In c REQ_COMPONENTS /\ Word c (Str.chars text).
Proof.
  rewrite component_regex_req. intros H.
  apply first_such_In in H as [I F]. split; [exact I|].
  apply found_iff in F. revert F. simpl in I.
  repeat (destruct I as [<-|I];
          [apply Occurs_whole_word; reflexivity|]).
  contradiction.
Qed.

Lemma req_metric_is_word (text v : string) :
  metric (_regex_req text) = Some v ->
  exists k, In (k, v) METRIC_ALIASES /\ Word k (Str.chars text).
Proof.
  rewrite metric_regex_req. unfold _alias_metric. intros H.
  apply first_hit_In in H as (k & I & F). exists k. split; [exact I|].
  apply found_iff in F. revert F. simpl in I.
  repeat (destruct I as [E|I];
          [injection E as <- <-; apply Occurs_whole_word; reflexivity|]).
  contradiction.
Qed.

(** The reading of C10 that the code refutes: every query that holds
    "pass" would get the status "pass". *)
Definition pass_substring_gives_pass : Prop :=
  forall q : string,
    Contains "pass" (Str.lower (Str.chars q)) ->
    f_status (_regex_filters q) = Some "pass".



(** *** A threshold without a unit *)

(** No unit-only pattern and no number with a unit is found in the query,
    and [m] is the match of the first threshold cue that is found. *)
Definition threshold_only (ql : list ascii) (m : mobj) : Prop :=
  first_match true unit_patterns ql = None
  /\ search true re_number_unit ql = None
  /\ first_match false threshold_patterns ql = Some m.

Lemma unit_and_threshold_only (ql : list ascii) (m : mobj) :
  threshold_only ql m ->
  unit_and_threshold ql
  = (Some (Num.float_of_decimal (group ql m 1)), infer_unit ql).
Proof.
  intros (U & N & T). unfold unit_and_threshold.
  rewrite U, N, T. reflexivity.
Qed.

Lemma min_value_regex_filters (q : string) :
  f_min_value (_regex_filters q)
  = fst (unit_and_threshold (Str.lower (Str.chars q))).
Proof.
  unfold _regex_filters.
  destruct (status_of (Str.lower (Str.chars q))).
  destruct (unit_and_threshold (Str.lower (Str.chars q))). reflexivity.
Qed.

Lemma unit_regex_filters (q : string) :
  f_unit (_regex_filters q)
  = snd (unit_and_threshold (Str.lower (Str.chars q))).
Proof.
  unfold _regex_filters.
  destruct (status_of (Str.lower (Str.chars q))).
  destruct (unit_and_threshold (Str.lower (Str.chars q))). reflexivity.
Qed.

(** A text that holds "kn" holds "n". *)
Lemma has_kn_n (l : list ascii) : has "kn" l = true -> has "n" l = true.
Proof.
  rewrite !has_iff. intros (pre & post & ->).
  exists (pre ++ Str.chars "k"), post. rewrite <- app_assoc. reflexivity.
Qed.

Lemma infer_unit_spec (ql : list ascii) :
  let kilo := Contains "kn" ql \/ Contains "kilo" ql in
  (infer_unit ql = Some "kN" <-> kilo)
  /\ (infer_unit ql = Some "mm" <-> ~ kilo /\ Contains "mm" ql)
  /\ (infer_unit ql = Some "N"
      <-> ~ kilo /\ ~ Contains "mm" ql /\ Contains "n" ql)
  /\ (infer_unit ql = None
      <-> ~ Contains "n" ql /\ ~ Contains "kilo" ql
          /\ ~ Contains "mm" ql).
Proof.
  cbv zeta. unfold infer_unit.
  rewrite <- !has_iff. pose proof (@has_kn_n ql) as K.
  destruct (has "kn" ql); destruct (has "kilo" ql);
    destruct (has "n" ql); destruct (has "mm" ql); simpl;
    repeat split; intros; try discriminate; try tauto;
    try (exfalso; intuition congruence); intuition congruence.
Qed.

(** The words of a text: its parts between white space. *)
Fixpoint words_from (cur : list ascii) (l : list ascii)
  : list (list ascii) :=
  match l with
  | [] => [rev cur]
  | c :: l' =>
      if Str.is_space c then rev cur :: words_from [] l'
      else words_from (c :: cur) l'
  end.

Definition is_unit_token (tok : list ascii) : bool :=
  existsb (String.eqb (Str.of_chars tok)) ["kn"; "n"; "mm"].

Definition has_unit_token (ql : list ascii) : bool :=
  existsb is_unit_token (words_from [] ql).

(** The reading of C7 that the code refutes: a threshold alone, in a query
    without any unit token, would leave the unit empty. *)
Definition threshold_without_token_has_no_unit : Prop :=
  forall (q : string) (m : mobj),
    threshold_only (Str.lower (Str.chars q)) m ->
    has_unit_token (Str.lower (Str.chars q)) = false ->
    f_unit (_regex_filters q) = None.



(** The match of the cue "above 5" in the query [tests above 5]. *)
Definition above_5 : mobj := MObj 6 13 [(1, (12, 13))].


End FiltersFacts.

(** ** The chat filters on the validated results *)

Module MainFacts.

Import Extract Providers Assisted Validate Main.
Local Open Scope string_scope.
Local Open Scope list_scope.

Lemma in_columns_DataFrame_of (c : string) (results : list out_row) :
  in_columns c (DataFrame_of results) = true
  <-> exists r, In r results /\ In c (row_keys r).
Proof.
  unfold in_columns, DataFrame_of. simpl.
  rewrite existsb_exists. split.
  - intros (x & I & E). apply String.eqb_eq in E. subst x.
    apply nodup_In in I. apply in_flat_map in I. exact I.
  - intros H. exists c. split; [|apply String.eqb_refl].
    apply nodup_In. apply in_flat_map. exact H.
Qed.

Lemma run_validation_frame w L ureg merged out :
  run_validation w L ureg merged = Ok out ->
  exists results, out = DataFrame_of results.
Proof.
  unfold run_validation.
  destruct (map_outcome (validation_row w L ureg) merged) as [rs|e];
    simpl; [|discriminate].
  intros H. injection H as <-. eauto.
Qed.

(** A frame with rows has the columns every row has. *)
Lemma base_columns (results : list out_row) :
  results <> [] ->
  in_columns "component" (DataFrame_of results) = true
  /\ in_columns "status" (DataFrame_of results) = true.
Proof.
  intros NE. destruct results as [|r rs]; [contradiction|].
  split; apply in_columns_DataFrame_of; exists r;
    (split; [left; reflexivity|]); unfold row_keys; simpl; tauto.
Qed.

(** The columns [measured_norm] and [unit] come together. *)
Lemma norm_columns (results : list out_row) :
  in_columns "measured_norm" (DataFrame_of results) = true ->
  results <> [] /\ in_columns "unit" (DataFrame_of results) = true.
Proof.
  intros H. apply in_columns_DataFrame_of in H as (r & I & K). split.
  - intros E. subst results. contradiction.
  - apply in_columns_DataFrame_of. exists r. split; [exact I|].
    unfold row_keys, result_keys in *.
    destruct (is_some (reason (res r))); destruct (is_some (measured_norm (res r)));
      simpl in *; intuition discriminate.
Qed.

(** The rows the component and the status of the filter select. *)
Definition component_ok (str_contains : string -> cell -> bool)
           (f : ChatFilter) (r : out_row) : bool :=
  match f_component f with
  | Some c => if truthy_str (Some c)
              then str_contains c (component r) else true
  | None => true
  end.

Definition status_ok (f : ChatFilter) (r : out_row) : bool :=
  match f_status f with
  | Some s => if truthy_str (Some s)
              then String.eqb (status (res r)) s else true
  | None => true
  end.

Definition preselected (str_contains : string -> cell -> bool)
           (f : ChatFilter) (out : DataFrame) : list out_row :=
  filter (status_ok f) (filter (component_ok str_contains f) (rows out)).

Lemma filter_true (A : Type) (l : list A) : filter (fun _ => true) l = l.
Proof. induction l as [|a l IH]; simpl; [reflexivity | now rewrite IH]. Qed.

Lemma in_columns_keep (c : string) (p : out_row -> bool) (df : DataFrame) :
  in_columns c (keep p df) = in_columns c df.
Proof. reflexivity. Qed.

Lemma first_two_steps ureg sc (f : ChatFilter) (out : DataFrame) :
  in_columns "component" out = true ->
  in_columns "status" out = true ->
  (vf1 <- by_component sc f out ;; by_status f vf1)
  = Ok (Frame (columns out) (preselected sc f out))
  /\ apply_filters ureg sc f out
     = by_min_value ureg f
         (by_unit f (Frame (columns out) (preselected sc f out))).
Proof.
  intros C S.
  assert (E : (vf1 <- by_component sc f out ;; by_status f vf1)
              = Ok (Frame (columns out) (preselected sc f out))).
  { unfold by_component, by_status, preselected, component_ok, status_ok,
      column.
    destruct (f_component f) as [c|]; destruct (f_status f) as [s|];
      repeat match goal with
             | |- context [truthy_str ?x] => destruct (truthy_str x)
             end;
      unfold bind; rewrite ?C; cbv beta iota;
      rewrite ?in_columns_keep, ?S; cbv beta iota;
      unfold keep; cbn [rows columns]; rewrite ?filter_true;
      try reflexivity; destruct out; reflexivity. }
  split; [exact E|]. unfold apply_filters.
  unfold bind in E |- *.
  destruct (by_component sc f out) as [vf1|e]; [|discriminate].
  destruct (by_status f vf1) as [vf2|e]; [|discriminate].
  injection E as ->. reflexivity.
Qed.

Lemma converts_above_iff ureg target min_val (r : out_row) :
  converts_above ureg target min_val r = true
  <-> exists m c,
      measured_norm (res r) = Some m
      /\ normalize ureg m (unit (res r)) (Some target) = Ok c
      /\ (min_val <= c)%Q.
Proof.
  unfold converts_above. destruct (measured_norm (res r)) as [m|].
  - destruct (normalize ureg m (unit (res r)) (Some target)) as [c|e] eqn:N.
    + rewrite Qle_bool_iff. split.
      * intros H. exists m, c. repeat split; auto.
      * intros (m' & c' & E1 & E2 & H). injection E1 as <-.
        rewrite N in E2. injection E2 as <-. exact H.
    + split; [discriminate|]. intros (m' & c' & E1 & E2 & _).
      injection E1 as <-. rewrite N in E2. discriminate.
  - split; [discriminate|]. intros (m' & c' & E1 & _). discriminate.
Qed.

(** The rows a threshold [min_val] in the unit [target] keeps among [vf]:
    with a row in that unit, the rows in that unit that reach the
    threshold; without one, the rows whose value converts into that unit
    and then reaches the threshold. *)
Definition threshold_rows ureg (target : string) (min_val : Q)
           (vf : list out_row) : list out_row :=
  if existsb (fun r => opt_eqb (unit (res r)) target) vf
  then filter (fun r => opt_eqb (unit (res r)) target
                        && cell_ge (measured_norm (res r)) min_val) vf
  else filter (converts_above ureg target min_val) vf.

(** The reading of C9 that the code refutes: every filter with a threshold
    and a unit would keep the rows of [threshold_rows]. *)
Definition threshold_always_applied : Prop :=
  forall (w : world) (L : libs) (ureg : UnitRegistry)
         (sc : string -> cell -> bool)
         (merged : list joined) (out : DataFrame)
         (min_val : Q) (target : string),
    run_validation w L ureg merged = Ok out ->
    Num.truthy min_val = true ->
    target <> "" ->
    apply_filters ureg sc
      (mkFilter None None None (Some min_val) (Some target)) out
    = Ok (Frame (columns out)
                (threshold_rows ureg target min_val (rows out))).

(** A test in kN against a requirement in mm: the conversion fails. *)
Definition mismatched : joined :=
  mkJoined "T1" "R1" (Text "door") Absent Absent (Some "gap") (Some "=")
           1 (Some "mm") 1 (Some "kN").


Lemma truthy_nonempty (s : string) : s <> "" -> truthy_str (Some s) = true.
Proof.
  intros NE. unfold truthy_str. apply String.eqb_neq in NE.
  rewrite NE. reflexivity.
Qed.


(** Two decided rows, in kN. *)
Definition in_kN (test_id : string) (measured : Q) : joined :=
  mkJoined test_id "R1" (Text "door") Absent Absent (Some "shear_strength")
           (Some "≥") (55 # 10) (Some "kN") measured (Some "N").

Definition sample_out : DataFrame :=
  match run_validation AssistedFacts.no_key_world AssistedFacts.plain_libs
          Units.si_registry [in_kN "T1" 6000; in_kN "T2" 5000] with
  | Ok out => out
  | Raise _ => Frame [] []
  end.

Definition sample_filter : ChatFilter :=
  mkFilter None None None (Some 5500%Q) (Some "N").


End MainFacts.

(** * Further properties of the code *)

(** ** The comparators and the shape of a validation result *)

Module ValidateMore.

Import Validate.
Local Open Scope string_scope.

Lemma Qlt_bool_iff (a b : Q) : Qlt_bool a b = true <-> (a < b)%Q.
Proof.
  unfold Qlt_bool. rewrite negb_true_iff. split.
  - intros H. apply Qnot_le_lt. intros L.
    apply Qle_bool_iff in L. congruence.
  - intros H. destruct (Qle_bool b a) eqn:E; [|reflexivity].
    apply Qle_bool_iff in E. exfalso. exact (Qlt_not_le _ _ H E).
Qed.

Lemma pass_iff (b : bool) : (if b then "pass" else "fail") = "pass" <-> b = true.
Proof. destruct b; split; (reflexivity || discriminate). Qed.

Lemma decided_status ureg req test mv op :
  normalize ureg (measured_value test) (test_unit test) (req_unit req)
  = Ok mv ->
  OPS (req_comparator req) = Some op ->
  validate_row ureg req test
  = mkResult (if op mv (req_value req) then "pass" else "fail") None
             (Some mv) (Some (req_value req)) (req_unit req).
Proof. intros N O. unfold validate_row. rewrite N, O. reflexivity. Qed.



(** X2. A validation result has one of two shapes.  With status "unknown"
    it carries a reason, which is "unit_conversion_failed" or
    "invalid_comparator", and no measured value, target or unit; otherwise
    the status is "pass" or "fail", there is no reason, the target and the
    unit are those of the requirement and the measured value is the
    converted one.  A conversion that raises is reported first: then the
    reason is "unit_conversion_failed" whatever the comparator is. *)
Theorem X2_result_shape :
  forall (ureg : UnitRegistry) (req : requirement) (test : measurement),
    let r := validate_row ureg req test in
    let conv :=
      normalize ureg (measured_value test) (test_unit test) (req_unit req) in
    ((status r = "unknown"
      /\ (reason r = Some "unit_conversion_failed"
          \/ reason r = Some "invalid_comparator")
      /\ measured_norm r = None /\ target r = None /\ unit r = None)
     \/ ((status r = "pass" \/ status r = "fail")
         /\ reason r = None
         /\ (exists mv, conv = Ok mv /\ measured_norm r = Some mv)
         /\ target r = Some (req_value req)
         /\ unit r = req_unit req))
    /\ ((exists e, conv = Raise e) ->
        reason r = Some "unit_conversion_failed").
Proof.
  intros ureg req test. cbv zeta. unfold validate_row.
  destruct (normalize ureg (measured_value test) (test_unit test)
                      (req_unit req)) as [mv|e].
  - split; [|intros [e E]; discriminate].
    destruct (OPS (req_comparator req)) as [op|]; cbn.
    + right. repeat split; eauto.
      destruct (op mv (req_value req)); auto.
    + left. auto.
  - cbn. split; [left; auto | reflexivity].
Qed.

End ValidateMore.

(** ** The provider and its three consumers, whatever the backend does *)

Module AssistedMore.

Import Extract Filters Providers Assisted AssistedFacts.
Local Open Scope string_scope.

Lemma have_llm_iff (w : world) :
  have_llm w = true <-> exists key, GROQ_API_KEY w = Some key /\ key <> "".
Proof.
  unfold have_llm, available, truthy_str.
  destruct (GROQ_API_KEY w) as [key|].
  - rewrite negb_true_iff, String.eqb_neq. split.
    + intros H. eauto.
    + intros (k & E & H). injection E as ->. exact H.
  - split; [discriminate | intros (k & E & _); discriminate].
Qed.

(** X3. The provider is available exactly when the key is set and not
    empty.  Without it [llm_chat] raises "Groq provider not available" and
    does not depend on the service; with it [llm_chat] returns the answer of
    the service, or raises the error of the service behind the prefix
    "Groq API error: "; it raises nothing else. *)
Theorem X3_llm_chat_gate :
  forall (w : world) (messages : list message) (temperature : Q),
    (have_llm w = true
     <-> exists key, GROQ_API_KEY w = Some key /\ key <> "")
    /\ (have_llm w = false ->
        forall create,
          llm_chat (World (GROQ_API_KEY w) create) messages temperature
          = Raise "Groq provider not available")
    /\ (have_llm w = true ->
        forall answer,
          llm_chat w messages temperature = Ok answer
          <-> groq_create w messages temperature = Ok answer)
    /\ (forall e,
           llm_chat w messages temperature = Raise e ->
           (have_llm w = false /\ e = "Groq provider not available")
           \/ (have_llm w = true
               /\ exists e', groq_create w messages temperature = Raise e'
                             /\ e = "Groq API error: " ++ e')).
Proof.
  intros w messages temperature.
  split; [apply have_llm_iff|].
  unfold llm_chat, chat_completion, have_llm, available. cbn [GROQ_API_KEY].
  destruct (truthy_str (GROQ_API_KEY w)); cbn [negb].
  - split; [discriminate|]. split.
    + intros _ answer.
      destruct (groq_create w messages temperature) as [c|e'];
        split; congruence.
    + intros e H. right. split; [reflexivity|].
      destruct (groq_create w messages temperature) as [c|e'];
        [discriminate|]. injection H as <-. eauto.
  - split; [reflexivity|]. split; [discriminate|].
    intros e H. injection H as <-. left. auto.
Qed.



(** X5. [parse_query_to_filters] never raises, whatever the query, the
    backend and the libraries do: it returns the filter decoded from the
    answer of the backend when the whole assisted path succeeded, as it
    is, and the filter of [_regex_filters] in every other case. *)
Theorem X5_parse_outcomes :
  forall (w : world) (L : libs) (q : string),
    exists f,
      parse_query_to_filters w L q = Ok f
      /\ ((have_llm w = true /\ llm_parse w L q = Ok f)
          \/ f = _regex_filters q).
Proof.
  intros w L q. unfold parse_query_to_filters.
  destruct (have_llm w); [|eauto].
  destruct (llm_parse w L q) as [f|e]; eauto.
Qed.

(** X6. [explain_from_facts] raises in two cases only: without a key, when
    the status is "pass" or "fail" and the facts hold no measured value
    (the template cannot format it); and with a key, when the facts cannot
    be written as JSON, which happens before the guarded call. *)
Theorem X6_explain_raises_iff :
  forall (w : world) (L : libs) (f : Facts),
    (exists e, explain_from_facts w L f = Raise e)
    <-> (have_llm w = false
         /\ (fc_status f = Some "pass" \/ fc_status f = Some "fail")
         /\ fc_measured_norm f = None)
        \/ (have_llm w = true
            /\ exists e, json_dumps L (facts_items f) = Raise e).
Proof.
  intros w L f. unfold explain_from_facts, template.
  destruct (have_llm w); cbn [negb].
  - destruct (json_dumps L (facts_items f)) as [d|e]; cbn [bind].
    + split.
      * intros [e H].
        destruct (llm_chat w [Msg "user" (explain_prompt d)] (2 # 10)%Q)
          as [[c|]|e']; discriminate.
      * intros [(H & _)|(_ & e & H)]; discriminate.
    + split; [intros _; right; eauto | eauto].
  - destruct (fc_status f) as [s|].
    + destruct (String.eqb_spec s "pass") as [->|NP].
      * destruct (fc_measured_norm f) as [m|]; split.
        -- intros [e H]. discriminate.
        -- intros [(_ & _ & H)|(H & _)]; discriminate.
        -- intros _. left. auto.
        -- eauto.
      * destruct (String.eqb_spec s "fail") as [->|NF].
        -- destruct (fc_measured_norm f) as [m|]; split.
           ++ intros [e H]. discriminate.
           ++ intros [(_ & _ & H)|(H & _)]; discriminate.
           ++ intros _. left. auto.
           ++ eauto.
        -- split.
           ++ intros [e H]. discriminate.
           ++ intros [(_ & [H|H] & _)|(H & _)]; try discriminate;
                injection H as ->; contradiction.
    + cbn. split.
      * intros [e H]. discriminate.
      * intros [(_ & [H|H] & _)|(H & _)]; discriminate.
Qed.

End AssistedMore.

(** ** The validation run and the filter stage *)

Module MainMore.

Import Extract Providers Assisted Validate Main MainFacts.
Local Open Scope string_scope.
Local Open Scope list_scope.

(** The requirement and the measurement the loop takes from a joined row. *)
Definition requirement_of (r : joined) : requirement :=
  mkRequirement (j_comparator r) (j_value r) (j_unit_req r).

Definition measurement_of (r : joined) : measurement :=
  mkMeasurement (j_measured_value r) (j_unit_test r).

(** The backend cannot make the explanation raise: there is no key, or the
    facts can always be written as JSON. *)
Definition explanation_safe (w : world) (L : libs) : Prop :=
  have_llm w = false \/ forall kv, exists d, json_dumps L kv = Ok d.

Lemma validation_row_ok w L ureg (r : joined) :
  explanation_safe w L ->
  exists row,
    validation_row w L ureg r = Ok row
    /\ test_id row = j_test_id r
    /\ res row = validate_row ureg (requirement_of r) (measurement_of r).
Proof.
  intros S. unfold validation_row.
  fold (requirement_of r). fold (measurement_of r).
  set (result := validate_row ureg (requirement_of r) (measurement_of r)).
  match goal with
  | |- context [explain_from_facts w L ?f] =>
      assert (E : exists e, explain_from_facts w L f = Ok e)
  end.
  { unfold explain_from_facts. destruct S as [U|J].
    - rewrite U. cbn [negb]. unfold template. cbn [fc_status fc_measured_norm].
      subst result. unfold validate_row.
      destruct (normalize ureg _ _ _) as [mv|e]; [|cbn; eauto].
      destruct (OPS _) as [op|]; [|cbn; eauto].
      cbn [status measured_norm]. destruct (op mv _); cbn; eauto.
    - destruct (have_llm w); cbn [negb].
      + match goal with
        | |- context [json_dumps L ?kv] => destruct (J kv) as [d D]
        end.
        rewrite D. cbn [bind].
        destruct (llm_chat w _ _) as [[c|]|e]; eauto.
      + unfold template. cbn [fc_status fc_measured_norm].
        subst result. unfold validate_row.
        destruct (normalize ureg _ _ _) as [mv|e]; [|cbn; eauto].
        destruct (OPS _) as [op|]; [|cbn; eauto].
        cbn [status measured_norm]. destruct (op mv _); cbn; eauto. }
  destruct E as [e E]. rewrite E. cbn [bind]. eexists. split; [reflexivity|].
  split; reflexivity.
Qed.



(** *** What the filters can and cannot do *)

(** [vf] has the columns of [out] and its rows are rows of [out] picked by
    a test, so in the order of [out] and without repetition. *)
Definition narrowed (vf out : DataFrame) : Prop :=
  columns vf = columns out /\ exists p, rows vf = filter p (rows out).

Lemma narrowed_refl (out : DataFrame) : narrowed out out.
Proof.
  split; [reflexivity|]. exists (fun _ => true). symmetry.
  apply filter_true.
Qed.

Lemma filter_filter (A : Type) (p q : A -> bool) (l : list A) :
  filter p (filter q l) = filter (fun x => q x && p x) l.
Proof.
  induction l as [|a l IH]; cbn [filter]; [reflexivity|].
  destruct (q a); cbn [filter andb]; [|exact IH].
  destruct (p a); rewrite IH; reflexivity.
Qed.

Lemma narrowed_trans (a b c : DataFrame) :
  narrowed a b -> narrowed b c -> narrowed a c.
Proof.
  intros [C1 [p P]] [C2 [q Q]]. split; [congruence|].
  exists (fun x => q x && p x). rewrite P, Q. apply filter_filter.
Qed.

Lemma narrowed_keep (p : out_row -> bool) (out : DataFrame) :
  narrowed (keep p out) out.
Proof. split; [reflexivity|]. exists p. reflexivity. Qed.

Create HintDb narrow.
#[local] Hint Resolve narrowed_refl narrowed_keep : narrow.

Lemma by_component_narrows sc f out vf :
  by_component sc f out = Ok vf -> narrowed vf out.
Proof.
  unfold by_component, column.
  destruct (f_component f) as [c|];
    [destruct (truthy_str (Some c));
     [destruct (in_columns "component" out); cbn [bind]|]|];
    intros H; try discriminate; injection H as <-; auto with narrow.
Qed.

Lemma by_status_narrows f out vf :
  by_status f out = Ok vf -> narrowed vf out.
Proof.
  unfold by_status, column.
  destruct (f_status f) as [c|];
    [destruct (truthy_str (Some c));
     [destruct (in_columns "status" out); cbn [bind]|]|];
    intros H; try discriminate; injection H as <-; auto with narrow.
Qed.

Lemma by_unit_narrows f out : narrowed (by_unit f out) out.
Proof.
  unfold by_unit. destruct (f_unit f) as [u|]; [|auto with narrow].
  destruct (_ && _); auto with narrow.
Qed.

Lemma by_min_value_narrows ureg f out vf :
  by_min_value ureg f out = Ok vf -> narrowed vf out.
Proof.
  unfold by_min_value, column.
  destruct (f_min_value f) as [m|]; [|intros H; injection H as <-; auto with narrow].
  destruct (Num.truthy m); [|intros H; injection H as <-; auto with narrow].
  destruct (f_unit f) as [u|].
  - destruct (truthy_str (Some u)).
    + destruct (in_columns "measured_norm" out);
        [|intros H; injection H as <-; auto with narrow].
      destruct (in_columns "unit" out); cbn [bind]; [|discriminate].
      destruct (existsb _ _); intros H; injection H as <-;
        auto with narrow.
    + destruct (in_columns "measured_norm" out);
        intros H; injection H as <-; auto with narrow.
  - destruct (in_columns "measured_norm" out);
      intros H; injection H as <-; auto with narrow.
Qed.

Lemma apply_filters_narrows ureg sc f (out vf : DataFrame) :
  apply_filters ureg sc f out = Ok vf -> narrowed vf out.
Proof.
  unfold apply_filters.
  destruct (by_component sc f out) as [vf1|e] eqn:E1; cbn [bind];
    [|discriminate].
  destruct (by_status f vf1) as [vf2|e] eqn:E2; cbn [bind]; [|discriminate].
  intros E3. apply by_component_narrows in E1. apply by_status_narrows in E2.
  apply by_min_value_narrows in E3.
  exact (narrowed_trans E3
           (narrowed_trans (by_unit_narrows f vf2)
                           (narrowed_trans E2 E1))).
Qed.

(** X8. Whatever the filter and the frame, the filters only take rows
    away: the frame returned has the same columns, and its rows are rows of
    the input picked by a test, in the same order; no row is added,
    changed, repeated or moved. *)
Theorem X8_filters_only_narrow :
  forall (ureg : UnitRegistry) (sc : string -> cell -> bool)
         (f : ChatFilter) (out vf : DataFrame),
    apply_filters ureg sc f out = Ok vf ->
    columns vf = columns out
    /\ exists p, rows vf = filter p (rows out).
Proof.
  intros ureg sc f out vf H. eapply apply_filters_narrows. exact H.
Qed.

Definition sample_kept : DataFrame :=
  match apply_filters Units.si_registry (fun _ _ => true) sample_filter
          sample_out with
  | Ok vf => vf
  | Raise _ => Frame [] []
  end.

Lemma X8_witness :
  apply_filters Units.si_registry (fun _ _ => true) sample_filter sample_out
  = Ok sample_kept
  /\ columns sample_kept = columns sample_out
  /\ exists p, rows sample_kept = filter p (rows sample_out).
Proof.
  assert (A : apply_filters Units.si_registry (fun _ _ => true)
                sample_filter sample_out = Ok sample_kept)
    by (vm_compute; reflexivity).
  split; [exact A|]. exact (X8_filters_only_narrow _ _ _ _ A).
Defined.

Lemma steps_on_results ureg sc f (results : list out_row) :
  results <> [] ->
  apply_filters ureg sc f (DataFrame_of results)
  = by_min_value ureg f
      (by_unit f (Frame (columns (DataFrame_of results))
                        (preselected sc f (DataFrame_of results)))).
Proof.
  intros NE. destruct (base_columns NE) as [CC CS].
  exact (proj2 (first_two_steps ureg sc f _ CC CS)).
Qed.

Lemma by_unit_columns f (vf : DataFrame) :
  columns (by_unit f vf) = columns vf.
Proof. exact (proj1 (by_unit_narrows f vf)). Qed.

Lemma in_columns_same (c : string) (a b : DataFrame) :
  columns a = columns b -> in_columns c a = in_columns c b.
Proof. unfold in_columns. intros ->. reflexivity. Qed.

Lemma filters_ok_on_results ureg sc f (results : list out_row) :
  results <> [] ->
  exists vf, apply_filters ureg sc f (DataFrame_of results) = Ok vf.
Proof.
  intros NE. rewrite (steps_on_results ureg sc f NE).
  set (vf := by_unit f _).
  assert (C : columns vf = columns (DataFrame_of results))
    by (subst vf; rewrite by_unit_columns; reflexivity).
  unfold by_min_value, column.
  destruct (f_min_value f) as [m|]; [|eauto].
  destruct (Num.truthy m); [|eauto].
  assert (G : in_columns "measured_norm" vf = true ->
              in_columns "unit" vf = true).
  { rewrite (@in_columns_same "measured_norm" _ _ C),
      (@in_columns_same "unit" _ _ C). intros H.
    exact (proj2 (norm_columns _ H)). }
  destruct (f_unit f) as [u|].
  - destruct (truthy_str (Some u)).
    + destruct (in_columns "measured_norm" vf); [|eauto].
      rewrite G by reflexivity. cbn [bind].
      destruct (existsb _ _); eauto.
    + destruct (in_columns "measured_norm" vf); eauto.
  - destruct (in_columns "measured_norm" vf); eauto.
Qed.









End MainMore.

(** ** The groups of a match *)

Module ReMore.

Import Re ReFacts.

(** No group occurs in the pattern. *)
Fixpoint plain (r : regex) : bool :=
  match r with
  | Grp _ _ => false
  | Cat a b | Alt a b => plain a && plain b
  | Opt a => plain a
  | _ => true
  end.

(** A pattern without groups leaves the groups of the state as they are. *)
Lemma run_sound_plain (A : Type) (ci : bool) (r : regex) :
  plain r = true ->
  forall (k : mstate -> option A) st x,
    run ci r k st = Some x ->
    exists s post,
      rest st = s ++ post /\ Matches ci r (prev st) s post
      /\ k (MState (pos st + length s) (last_char (prev st) s) post
                   (caps st)) = Some x.
Proof.
  induction r as [ | c | cl | cl | a IHa b IHb | a IHa b IHb | a IHa
                 | | | n a IHa ];
    intros P k [i pv l cs] x H; cbn [plain] in P; cbn [run] in H;
    cbn [pos prev rest caps] in *.
  - exists [], l. cbn. rewrite Nat.add_0_r. repeat split; auto. constructor.
  - destruct l as [|y l]; [discriminate|].
    destruct (chr_eq ci c y) eqn:E; [|discriminate].
    exists [y], l. cbn. rewrite Nat.add_1_r. repeat split; auto.
    constructor. exact E.
  - destruct l as [|y l]; [discriminate|].
    destruct (in_class cl y) eqn:E; [|discriminate].
    exists [y], l. cbn. rewrite Nat.add_1_r. repeat split; auto.
    constructor. exact E.
  - apply star_sound in H as (s & post & -> & F & K).
    exists s, post. repeat split; auto. constructor. exact F.
  - apply andb_true_iff in P as [Pa Pb].
    apply (IHa Pa) in H as (s1 & post1 & E1 & M1 & K1).
    apply (IHb Pb) in K1 as (s2 & post & E2 & M2 & K2).
    cbn [pos prev rest caps] in *. subst.
    exists (s1 ++ s2), post.
    rewrite <- app_assoc, last_char_app, length_app, Nat.add_assoc.
    repeat split; auto. constructor; assumption.
  - apply andb_true_iff in P as [Pa Pb].
    destruct (run ci a k (MState i pv l cs)) as [y|] eqn:E.
    + injection H as <-. apply (IHa Pa) in E as (s & post & ? & ? & ?).
      exists s, post. repeat split; auto. apply M_AltL. assumption.
    + apply (IHb Pb) in H as (s & post & ? & ? & ?).
      exists s, post. repeat split; auto. apply M_AltR. assumption.
  - destruct (run ci a k (MState i pv l cs)) as [y|] eqn:E.
    + injection H as <-. apply (IHa P) in E as (s & post & ? & ? & ?).
      exists s, post. repeat split; auto. apply M_OptSome. assumption.
    + exists [], l. cbn. rewrite Nat.add_0_r. repeat split; auto.
      apply M_OptNone.
  - destruct pv; [discriminate|].
    exists [], l. cbn. rewrite Nat.add_0_r. repeat split; auto. constructor.
  - destruct (at_boundary (MState i pv l cs)) eqn:E; [|discriminate].
    exists [], l. cbn. rewrite Nat.add_0_r. repeat split; auto.
    constructor. exact E.
  - discriminate.
Qed.

Lemma slice_at (a b c : list ascii) :
  Str.slice (length a) (length a + length b) (a ++ b ++ c) = b.
Proof. apply slice_middle. Qed.

(** The shape of the two patterns that read a number and a unit: a first
    group, a part without group, a second group and a tail. *)
Definition two_groups (N W U T : regex) : regex :=
  Cat (Grp 1 N) (Cat W (Cat (Grp 2 U) T)).

Section TwoGroups.
Variable ci : bool.
Variables N W U T : regex.
Hypothesis plain_N : plain N = true.
Hypothesis plain_W : plain W = true.
Hypothesis plain_U : plain U = true.
Hypothesis plain_T : plain T = true.

(** The parts of a match of [two_groups] that starts after [pv]. *)
Definition parts (pv : option ascii) (g1 ws g2 tl post : list ascii)
  : Prop :=
  Matches ci N pv g1 (ws ++ g2 ++ tl ++ post)
  /\ Matches ci W (last_char pv g1) ws (g2 ++ tl ++ post)
  /\ Matches ci U (last_char (last_char pv g1) ws) g2 (tl ++ post)
  /\ Matches ci T (last_char (last_char (last_char pv g1) ws) g2) tl post.

Lemma match_at_two_groups i pv l m :
  match_at ci (two_groups N W U T) i pv l = Some m ->
  exists g1 ws g2 tl post,
    l = g1 ++ ws ++ g2 ++ tl ++ post /\ parts pv g1 ws g2 tl post
    /\ lookup_cap 1 (m_caps m) = Some (i, i + length g1)
    /\ lookup_cap 2 (m_caps m)
       = Some (i + length g1 + length ws,
               i + length g1 + length ws + length g2).
Proof.
  unfold match_at, two_groups. cbn [run]. intros H.
  apply (run_sound_plain _ _ plain_N) in H as (g1 & p1 & E1 & M1 & H).
  cbn [pos prev rest caps] in *.
  apply (run_sound_plain _ _ plain_W) in H as (ws & p2 & E2 & M2 & H).
  cbn [pos prev rest caps] in *.
  apply (run_sound_plain _ _ plain_U) in H as (g2 & p3 & E3 & M3 & H).
  cbn [pos prev rest caps] in *.
  apply (run_sound_plain _ _ plain_T) in H as (tl & post & E4 & M4 & H).
  cbn [pos prev rest caps] in *. injection H as <-. subst.
  exists g1, ws, g2, tl, post. cbn [m_caps lookup_cap Nat.eqb].
  repeat split; auto.
Qed.

Lemma search_from_two_groups :
  forall l i pv m,
    search_from ci (two_groups N W U T) i pv l = Some m ->
    exists pre g1 ws g2 tl post,
      l = pre ++ g1 ++ ws ++ g2 ++ tl ++ post
      /\ parts (last_char pv pre) g1 ws g2 tl post
      /\ lookup_cap 1 (m_caps m)
         = Some (i + length pre, i + length pre + length g1)
      /\ lookup_cap 2 (m_caps m)
         = Some (i + length pre + length g1 + length ws,
                 i + length pre + length g1 + length ws + length g2).
Proof.
  induction l as [|c l IH]; intros i pv m H; cbn [search_from] in H.
  - destruct (match_at ci (two_groups N W U T) i pv []) as [m'|] eqn:E;
      [|discriminate].
    injection H as <-.
    apply match_at_two_groups in E
      as (g1 & ws & g2 & tl & post & E1 & P & C1 & C2).
    exists [], g1, ws, g2, tl, post. cbn [app length last_char].
    rewrite Nat.add_0_r. auto.
  - destruct (match_at ci (two_groups N W U T) i pv (c :: l))
      as [m'|] eqn:E.
    + injection H as <-.
      apply match_at_two_groups in E
        as (g1 & ws & g2 & tl & post & E1 & P & C1 & C2).
      exists [], g1, ws, g2, tl, post. cbn [app length last_char].
      rewrite Nat.add_0_r. auto.
    + apply IH in H as (pre & g1 & ws & g2 & tl & post & E1 & P & C1 & C2).
      exists (c :: pre), g1, ws, g2, tl, post.
      cbn [app length last_char]. subst l.
      rewrite <- !Nat.add_succ_comm. auto.
Qed.

(** The two groups of a match of [two_groups] are the two parts of the
    text the inner patterns matched. *)
Lemma search_two_groups (text : list ascii) (m : mobj) :
  search ci (two_groups N W U T) text = Some m ->
  exists pre g1 ws g2 tl post,
    text = pre ++ g1 ++ ws ++ g2 ++ tl ++ post
    /\ parts (last_char None pre) g1 ws g2 tl post
    /\ group text m 1 = g1 /\ group text m 2 = g2.
Proof.
  unfold search. intros H.
  apply search_from_two_groups in H
    as (pre & g1 & ws & g2 & tl & post & -> & P & C1 & C2).
  exists pre, g1, ws, g2, tl, post. split; [reflexivity|].
  split; [exact P|]. unfold group. rewrite C1, C2. cbn [Nat.add].
  split; [apply slice_at|].
  replace (length pre + length g1 + length ws)
    with (length (pre ++ g1 ++ ws)) by (rewrite !length_app; lia).
  replace (pre ++ g1 ++ ws ++ g2 ++ tl ++ post)
    with ((pre ++ g1 ++ ws) ++ g2 ++ tl ++ post)
    by (rewrite <- !app_assoc; reflexivity).
  apply slice_at.
Qed.

End TwoGroups.

End ReMore.

(** ** The number and the unit of the fallback requirement extractor *)

Module ExtractMore.

Import Re ReFacts ReMore Cues Extract.
Local Open Scope string_scope.
Local Open Scope list_scope.

(** A decimal numeral: digits, and possibly a point and digits. *)
Definition Number (s : list ascii) : Prop :=
  exists ip,
    ip <> [] /\ forallb Str.is_digit ip = true
    /\ (s = ip
        \/ exists fp, fp <> [] /\ forallb Str.is_digit fp = true
                      /\ s = ip ++ "."%char :: fp).

(** One of the three units, in any case of letters. *)
Definition UnitText (un : list ascii) : Prop :=
  Same true (Str.chars "kN") un \/ Same true (Str.chars "N") un
  \/ Same true (Str.chars "mm") un.

(** A number, white space if any, and a unit that no word character
    follows. *)
Definition Quantity (t pre num ws un post : list ascii) : Prop :=
  t = pre ++ num ++ ws ++ un ++ post
  /\ Number num /\ forallb Str.is_space ws = true
  /\ UnitText un /\ word_head post = false.

Lemma point_only (x : ascii) : chr_eq true "."%char x = true -> x = "."%char.
Proof.
  destruct x as [[] [] [] [] [] [] [] []]; vm_compute;
    intros H; (reflexivity || discriminate H).
Qed.

Lemma Matches_number pv s post :
  Matches true number pv s post <-> Number s.
Proof.
  unfold number, Number. rewrite Matches_Cat. split.
  - intros (ip & s2 & -> & M1 & M2).
    apply Matches_Plus in M1 as [NE D]. exists ip. repeat split; auto.
    apply Matches_Opt in M2 as [M2| ->]; [|left; apply app_nil_r].
    apply Matches_Cat in M2 as (d & fp & -> & Md & Mf).
    apply Matches_Chr in Md as (x & -> & X). apply point_only in X. subst x.
    apply Matches_Plus in Mf as [NE' D']. right. exists fp. auto.
  - intros (ip & NE & D & [->|(fp & NE' & D' & ->)]).
    + exists ip, []. split; [symmetry; apply app_nil_r|].
      split; [apply Matches_Plus; auto | apply Matches_Opt; auto].
    + exists ip, ("."%char :: fp). split; [reflexivity|].
      split; [apply Matches_Plus; auto|].
      apply Matches_Opt. left. apply Matches_Cat.
      exists ["."%char], fp. split; [reflexivity|].
      split; [apply Matches_Chr; eexists; split; reflexivity|].
      apply Matches_Plus. auto.
Qed.

(** [(kN|N|mm)] without its group *)
Definition re_units : regex := Alt (Lit "kN") (Alt (Lit "N") (Lit "mm")).

Lemma Matches_units pv s post :
  Matches true re_units pv s post <-> UnitText s.
Proof.
  unfold re_units, UnitText, Lit.
  rewrite !Matches_Alt, !Matches_lit. reflexivity.
Qed.

Lemma UnitText_ends_in_word (un : list ascii) (pv : option ascii) :
  UnitText un -> word_opt (last_char pv un) = true.
Proof.
  intros [H|[H|H]];
    rewrite (Same_last H pv None) by discriminate; reflexivity.
Qed.

Lemma value_unit_shape :
  re_value_unit = two_groups number (Star Space) re_units Wb.
Proof. reflexivity. Qed.

Lemma parts_quantity pre num ws un tl post :
  parts true number (Star Space) re_units Wb
        (last_char None pre) num ws un tl post
  <-> tl = [] /\ Number num /\ forallb Str.is_space ws = true
      /\ UnitText un /\ word_head post = false.
Proof.
  unfold parts.
  rewrite Matches_number, Matches_Star, Matches_units, Matches_Wb.
  cbn [in_class]. split.
  - intros (N & S & U & -> & B).
    rewrite (UnitText_ends_in_word _ U) in B.
    repeat split; auto. cbn in B. destruct (word_head post);
      [discriminate | reflexivity].
  - intros (-> & N & S & U & B). repeat split; auto.
    rewrite (UnitText_ends_in_word _ U). cbn. rewrite B. reflexivity.
Qed.



End ExtractMore.

(** ** What the fallback query parser can return *)

Module FiltersMore.

Import Re ReFacts ReMore Cues Extract Filters FiltersFacts ExtractMore.
Local Open Scope string_scope.
Local Open Scope list_scope.

Lemma metric_regex_filters (q : string) :
  f_metric (_regex_filters q) = metric_of (Str.lower (Str.chars q)).
Proof.
  unfold _regex_filters.
  destruct (status_of (Str.lower (Str.chars q))).
  destruct (unit_and_threshold (Str.lower (Str.chars q))). reflexivity.
Qed.

(** The units a filter can name. *)
Definition canonical (o : option string) : Prop :=
  o = None \/ o = Some "kN" \/ o = Some "N" \/ o = Some "mm".

Lemma canonical_unit_canonical (u : list ascii) :
  canonical (canonical_unit u).
Proof.
  unfold canonical, canonical_unit.
  destruct (String.eqb _ "kn"); [auto|].
  destruct (String.eqb _ "n"); [auto|].
  destruct (String.eqb _ "mm"); auto.
Qed.

Lemma infer_unit_canonical (ql : list ascii) : canonical (infer_unit ql).
Proof.
  unfold canonical, infer_unit.
  destruct (_ || _); [auto|].
  destruct (_ && _); [auto|].
  destruct (has "mm" ql); auto.
Qed.

Lemma unit_and_threshold_canonical (ql : list ascii) :
  canonical (snd (unit_and_threshold ql)).
Proof.
  unfold unit_and_threshold.
  set (unit1 := match first_match true unit_patterns ql with
                | Some m => canonical_unit (group ql m 1)
                | None => None
                end).
  assert (C1 : canonical unit1).
  { subst unit1. destruct (first_match true unit_patterns ql);
      [apply canonical_unit_canonical | left; reflexivity]. }
  destruct (falsy_str unit1); [|exact C1].
  destruct (search true re_number_unit ql);
    [apply canonical_unit_canonical|].
  destruct (first_match false threshold_patterns ql);
    [apply infer_unit_canonical | exact C1].
Qed.

(** X13. Whatever the query, every field of the filter the fallback parser
    returns is empty or taken from a fixed vocabulary: the status is "fail"
    or "pass", the component is a name of the component table, the metric
    is "shear_strength", "gap" or "rigidity", and the unit is "kN", "N" or
    "mm" in exactly this spelling. *)
Theorem X13_filter_vocabulary :
  forall q : string,
    let f := _regex_filters q in
    (f_status f = None \/ f_status f = Some "fail"
     \/ f_status f = Some "pass")
    /\ (forall c, f_component f = Some c -> In c FILTER_COMPONENTS)
    /\ (forall v, f_metric f = Some v ->
                  v = "shear_strength" \/ v = "gap" \/ v = "rigidity")
    /\ canonical (f_unit f).
Proof.
  intros q. cbv zeta.
  rewrite status_regex_filters, component_regex_filters,
    metric_regex_filters, unit_regex_filters.
  split; [|split; [|split]].
  - unfold status_of.
    repeat match goal with
           | |- context [if ?b then _ else _] => destruct b
           end; cbn; auto.
  - intros c H. unfold component_of in H.
    apply first_such_In in H. exact (proj1 H).
  - intros v H. unfold metric_of in H.
    apply first_hit_In in H as (k & I & _). cbn in I.
    repeat (destruct I as [E|I]; [injection E as _ <-; auto|]).
    contradiction.
  - apply unit_and_threshold_canonical.
Qed.

Lemma digits_val_nonneg (l : list ascii) :
  forall acc, (0 <= acc)%Z -> (0 <= Num.digits_val acc l)%Z.
Proof.
  induction l as [|c l IH]; intros acc H; cbn [Num.digits_val];
    [exact H|].
  apply IH. unfold Num.digit_val. lia.
Qed.

Lemma float_of_decimal_nonneg (l : list ascii) :
  (0 <= Num.float_of_decimal l)%Q.
Proof.
  unfold Num.float_of_decimal.
  destruct (Num.split_dot l) as [ip [fp|]]; rewrite Qred_correct;
    unfold Qle; cbn [Qnum Qden inject_Z]; rewrite Z.mul_0_l, Z.mul_1_r.
  - change (0 <= Num.digits_val (Num.digits_val 0 ip) fp)%Z.
    apply digits_val_nonneg. apply digits_val_nonneg. reflexivity.
  - change (0 <= Num.digits_val 0 ip)%Z.
    apply digits_val_nonneg. reflexivity.
Qed.



Lemma Same_true_lower (w s : list ascii) :
  Same true w s <-> Str.lower w = Str.lower s.
Proof.
  unfold Same. split.
  - induction 1 as [|a b w' s' E _ IH]; [reflexivity|].
    cbn [Str.lower map]. apply Ascii.eqb_eq in E.
    unfold Str.lower in IH. rewrite E, IH. reflexivity.
  - revert s. induction w as [|a w IH]; intros [|b s] H;
      try discriminate; constructor.
    + cbn [Str.lower map] in H. injection H as H _.
      apply Ascii.eqb_eq. exact H.
    + apply IH. cbn [Str.lower map] in H. injection H as _ H. exact H.
Qed.

(** [(kn|n|mm)] without its group *)
Definition re_units_lower : regex := alts ["kn"; "n"; "mm"].

Lemma Matches_units_lower pv s post :
  Matches true re_units_lower pv s post <-> UnitText s.
Proof.
  unfold re_units_lower, UnitText, alts, Lit.
  rewrite !Matches_Alt, !Matches_lit, !Same_true_lower. reflexivity.
Qed.

Lemma canonical_unit_of_text (un : list ascii) :
  UnitText un ->
  exists u, canonical_unit un = Some u
            /\ In u ["kN"; "N"; "mm"] /\ Same true (Str.chars u) un.
Proof.
  unfold canonical_unit.
  intros [H|[H|H]]; pose proof H as H'; apply Same_true_lower in H;
    rewrite <- H; [exists "kN" | exists "N" | exists "mm"];
    (split; [vm_compute; reflexivity|]);
    (split; [cbn [In]; auto | exact H']).
Qed.

Lemma number_unit_shape :
  re_number_unit = two_groups number (Star Space) re_units_lower Eps.
Proof. reflexivity. Qed.

(** A number, white space if any, and a unit, whatever follows. *)
Definition LooseQuantity (t pre num ws un post : list ascii) : Prop :=
  t = pre ++ num ++ ws ++ un ++ post
  /\ Number num /\ forallb Str.is_space ws = true /\ UnitText un.



End FiltersMore.

(** ** app/main.py: filling the requirements from their free text *)

Module Fill.

Import Extract Providers Assisted.
Local Open Scope string_scope.
Local Open Scope list_scope.

(** A row of [req_df]: the free text and the six structured cells; a cell
    that is missing, or whose column does not exist, is [None]. *)
Record req_row : Type := mkReqRow {
  free_text : cell;
  r_metric : option string;
  r_comparator : option string;
  r_value : option Q;
  r_unit : option string;
  r_component : option string;
  r_condition : option string
}.

Record req_frame : Type := ReqFrame {
  req_columns : list string;
  req_rows : list req_row
}.

Definition has_column (k : string) (df : req_frame) : bool :=
  existsb (String.eqb k) (req_columns df).

(** [str(r.get("free_text", ""))]: a missing cell is the float nan, which
    prints as "nan". *)
Definition text_of (c : cell) : string :=
  match c with
  | Absent => ""
  | NaN => "nan"
  | Text s => s
  end.

(** [if k in req_df.columns and pd.isna(r[k]): req_df.loc[_, k] =
    d.get(k, r.get(k))], for one key: [old] is the cell and [new] what the
    extraction gives for the key (nothing when the key is absent or null,
    in which case the cell stays missing). *)
Definition fill (A : Type) (in_columns : bool) (old new : option A)
  : option A :=
  if in_columns then
    match old with
    | None => new
    | Some _ => old
    end
  else old.

(** The inner loop over the six keys. *)
Definition fill_row (df : req_frame) (d : ReqJSON) (r : req_row) : req_row :=
  mkReqRow (free_text r)
    (fill (has_column "metric" df) (r_metric r) (metric d))
    (fill (has_column "comparator" df) (r_comparator r) (comparator d))
    (fill (has_column "value" df) (r_value r) (value d))
    (fill (has_column "unit" df) (r_unit r) (unit d))
    (fill (has_column "component" df) (r_component r) (component d))
    (fill (has_column "condition" df) (r_condition r) (condition d)).

Section Button.
Variable w : world.
Variable L : libs.

(** The body of the loop over [req_df.iterrows()]. *)
Definition extract_row (df : req_frame) (r : req_row) : outcome req_row :=
  d <- extract_requirement_text_to_json w L (text_of (free_text r)) ;;
  Ok (fill_row df d r).

(** The handler of the button "Extract requirements from free_text";
    without the column [free_text] it only warns. *)
Definition extract_requirements (df : req_frame) : outcome req_frame :=
  if has_column "free_text" df then
    rows <- Main.map_outcome (extract_row df) (req_rows df) ;;
    Ok (ReqFrame (req_columns df) rows)
  else Ok df.
End Button.

End Fill.

Module FillFacts.

Import Extract Providers Assisted Fill.
Local Open Scope string_scope.
Local Open Scope list_scope.

(** [r'] keeps every cell that [r] holds, and the free text. *)
Definition keeps (r r' : req_row) : Prop :=
  free_text r' = free_text r
  /\ (forall v, r_metric r = Some v -> r_metric r' = Some v)
  /\ (forall v, r_comparator r = Some v -> r_comparator r' = Some v)
  /\ (forall v, r_value r = Some v -> r_value r' = Some v)
  /\ (forall v, r_unit r = Some v -> r_unit r' = Some v)
  /\ (forall v, r_component r = Some v -> r_component r' = Some v)
  /\ (forall v, r_condition r = Some v -> r_condition r' = Some v).

Lemma fill_keeps (A : Type) (b : bool) (old new : option A) (v : A) :
  old = Some v -> fill b old new = Some v.
Proof. intros ->. destruct b; reflexivity. Qed.

Lemma fill_row_keeps df d r : keeps r (fill_row df d r).
Proof.
  unfold keeps, fill_row. cbn.
  split; [reflexivity|]. repeat split; intros v H; apply fill_keeps; exact H.
Qed.

Lemma map_outcome_Forall2 (A B : Type) (f : A -> outcome B)
      (P : A -> B -> Prop) :
  (forall a b, f a = Ok b -> P a b) ->
  forall l l', Main.map_outcome f l = Ok l' -> Forall2 P l l'.
Proof.
  intros H. induction l as [|a l IH]; intros l' E; cbn in E.
  - injection E as <-. constructor.
  - destruct (f a) as [b|e] eqn:Fa; cbn in E; [|discriminate].
    destruct (Main.map_outcome f l) as [bs|e]; cbn in E; [|discriminate].
    injection E as <-. constructor; auto.
Qed.

(** X16. Extraction fills only what is missing: when the handler returns,
    the frame has the same columns and as many rows, in the same order, and
    every row keeps its free text and every structured cell that held a
    value before, whatever the backend or the patterns found; without a
    column [free_text] the frame is returned as it is. *)
Theorem X16_fill_only_if_missing :
  forall (w : world) (L : libs) (df out : req_frame),
    extract_requirements w L df = Ok out ->
    req_columns out = req_columns df
    /\ Forall2 keeps (req_rows df) (req_rows out)
    /\ (has_column "free_text" df = false -> out = df).
Proof.
  intros w L df out. unfold extract_requirements.
  destruct (has_column "free_text" df).
  - destruct (Main.map_outcome (extract_row w L df) (req_rows df))
      as [rows|e] eqn:E; cbn [bind]; [|discriminate].
    intros H. injection H as <-. cbn [req_columns req_rows].
    split; [reflexivity|]. split; [|discriminate].
    apply map_outcome_Forall2 with (2 := E).
    intros r r' R. unfold extract_row in R.
    destruct (extract_requirement_text_to_json w L _) as [d|e'];
      cbn [bind] in R; [|discriminate].
    injection R as <-. apply fill_row_keeps.
  - intros H. injection H as <-. split; [reflexivity|]. split; [|reflexivity].
    induction (req_rows df) as [|r l IH]; constructor; [|exact IH].
    unfold keeps. repeat split; auto.
Qed.

Definition sample_reqs : req_frame :=
  ReqFrame ["req_id"; "free_text"; "comparator"; "value"; "unit"]
    [ mkReqRow (Text "Shear strength must be at least 5.5 kN")
               None (Some "≥") None (Some "N") None None ].

Definition sample_filled : req_frame :=
  ReqFrame ["req_id"; "free_text"; "comparator"; "value"; "unit"]
    [ mkReqRow (Text "Shear strength must be at least 5.5 kN")
               None (Some "≥") (Some (11 # 2)%Q) (Some "N") None None ].

Lemma X16_witness :
  extract_requirements AssistedFacts.no_key_world AssistedFacts.plain_libs
    sample_reqs = Ok sample_filled
  /\ Forall2 keeps (req_rows sample_reqs) (req_rows sample_filled).
Proof.
  assert (E : extract_requirements AssistedFacts.no_key_world
                AssistedFacts.plain_libs sample_reqs = Ok sample_filled)
    by (vm_compute; reflexivity).
  split; [exact E|].
  exact (proj1 (proj2 (X16_fill_only_if_missing _ _ _ E))).
Defined.

End FillFacts.
